(** * DLO-138 plotter: the serial reader and the frame decoder of
    [oscilloscope.py], embedded in Rocq.

    Python values are modelled as follows.
    - [str] is a list of characters ([list ascii]); after [str(line, 'ascii')]
      every character is below 128.
    - [bytes] is [list byte].
    - [float] is the binary64 type [PrimFloat.float]; [float(s)] is the
      correctly rounded decimal conversion [py_float].
    - an exception is a constructor of [exn]; a computation that may raise
      returns [result].
    - the dictionary [plotdict] has a fixed set of keys and becomes a record. *)

From Stdlib Require Import Ascii String Strings.Byte DecimalString Bool Arith ZArith Lia List.
From Stdlib Require Import Floats.
Import ListNotations.

Set Implicit Arguments.
#[local] Set Warnings "-inexact-float".

(** ** Exceptions and the error monad *)

Inductive exn : Type :=
| IndexError          (* list or string index out of range *)
| ValueError          (* float() on a malformed literal *)
| AssertionError      (* the assert of parse_data *)
| UnicodeDecodeError. (* str(line, 'ascii') on a byte above 0x7f *)

Inductive result (A : Type) : Type :=
| Ok (a : A)
| Raise (e : exn).
Arguments Raise {A} e.

Definition bind {A B} (m : result A) (k : A -> result B) : result B :=
  match m with
  | Ok a => k a
  | Raise e => Raise e
  end.

Declare Scope py_scope.
Delimit Scope py_scope with py.
Notation "x <- m ;; k" := (bind m (fun x => k))
  (at level 61, m at next level, right associativity) : py_scope.
Open Scope py_scope.

Definition is_ok {A} (m : result A) : bool :=
  match m with Ok _ => true | Raise _ => false end.

(** [[f(x) for x in l]]: elements are evaluated left to right and the first
    exception leaves the comprehension. *)
Fixpoint comprehension {A B} (f : A -> result B) (l : list A) : result (list B) :=
  match l with
  | [] => Ok []
  | x :: l' => y <- f x ;; ys <- comprehension f l' ;; Ok (y :: ys)
  end.

(** ** Sequences: indexing and slicing *)

Section Sequences.
Variable A : Type.

(** [l[i]] for [i >= 0]. *)
Definition index (l : list A) (i : nat) : result A :=
  match nth_error l i with
  | Some x => Ok x
  | None => Raise IndexError
  end.

(** [l[-k]] for [k >= 1]. *)
Definition index_neg (l : list A) (k : nat) : result A :=
  if length l <? k then Raise IndexError else index l (length l - k).

(** [l[:n]]. *)
Definition slice_to (l : list A) (n : nat) : list A := firstn n l.

(** [l[a:-b]]: from position [a] up to, not including, position
    [len(l) - b]; empty when the bounds cross. *)
Definition slice_between (l : list A) (a b : nat) : list A :=
  skipn a (firstn (length l - b) l).

Variable eqb : A -> A -> bool.

(** [s.startswith(p)]. *)
Fixpoint starts_with (p s : list A) : bool :=
  match p, s with
  | [], _ => true
  | _ :: _, [] => false
  | a :: p', b :: s' => eqb a b && starts_with p' s'
  end.

(** [s.split(sep)] with a non-empty separator, as at every call of the
    program (Python raises [ValueError] on an empty one): the leftmost
    occurrence is taken first and occurrences do not overlap.  [skip] counts the
    characters of a separator that has just been matched and are still to
    be passed over; [cur] is the current field, reversed. *)
Fixpoint split_go (sep s : list A) (skip : nat) (cur : list A) : list (list A) :=
  match s with
  | [] => [rev cur]
  | c :: s' =>
      match skip with
      | S k => split_go sep s' k cur
      | O =>
          if starts_with sep s
          then rev cur :: split_go sep s' (length sep - 1) []
          else split_go sep s' 0 (c :: cur)
      end
  end.

Definition split (sep s : list A) : list (list A) := split_go sep s 0 [].

(** [s.replace(old, new)] with a non-empty [old]. *)
Fixpoint replace_go (old new s : list A) (skip : nat) : list A :=
  match s with
  | [] => []
  | c :: s' =>
      match skip with
      | S k => replace_go old new s' k
      | O =>
          if starts_with old s
          then new ++ replace_go old new s' (length old - 1)
          else c :: replace_go old new s' 0
      end
  end.

Definition replace (old new s : list A) : list A := replace_go old new s 0.

(** [sep.join(l)]. *)
Fixpoint join (sep : list A) (l : list (list A)) : list A :=
  match l with
  | [] => []
  | [x] => x
  | x :: l' => x ++ sep ++ join sep l'
  end.
End Sequences.

(** ** Strings *)

Definition str : Type := list ascii.

(** A string literal. *)
Definition lit (s : string) : str := list_ascii_of_string s.

Definition cr : ascii := ascii_of_nat 13.
Definition lf : ascii := ascii_of_nat 10.
Definition tab : ascii := ascii_of_nat 9.

(** [c.isspace()] on the code points below 256: the six ASCII blanks, the
    four separators 0x1c..0x1f, NEL and the no-break space. *)
Definition is_space (c : ascii) : bool :=
  let n := nat_of_ascii c in
  ((9 <=? n) && (n <=? 13)) || ((28 <=? n) && (n <=? 32))
  || (n =? 133) || (n =? 160).

Fixpoint drop_while (p : ascii -> bool) (s : str) : str :=
  match s with
  | c :: s' => if p c then drop_while p s' else s
  | [] => []
  end.

(** Removal of the leading and trailing characters that satisfy [p]. *)
Definition strip_by (p : ascii -> bool) (s : str) : str :=
  rev (drop_while p (rev (drop_while p s))).

(** [s.strip()]. *)
Definition strip (s : str) : str := strip_by is_space s.

Definition emit (cur : str) (rest : list str) : list str :=
  match cur with
  | [] => rest
  | _ :: _ => rev cur :: rest
  end.

(** [s.split()]: the maximal runs of non-blank characters. *)
Fixpoint split_ws_go (s : str) (cur : str) : list str :=
  match s with
  | [] => emit cur []
  | c :: s' =>
      if is_space c then emit cur (split_ws_go s' [])
      else split_ws_go s' (c :: cur)
  end.

Definition split_ws (s : str) : list str := split_ws_go s [].

Definition str_eqb (a b : str) : bool :=
  (length a =? length b) && starts_with Ascii.eqb a b.

Definition str_split : str -> str -> list str := split Ascii.eqb.
Definition str_replace : str -> str -> str -> str := replace Ascii.eqb.

(** ** [float(s)]

    The literal grammar of Python's [float]:
<<
    floatvalue ::= [sign] (floatnumber | infinity | nan)
    floatnumber ::= number [exponent]
    number      ::= [digitpart] "." digitpart | digitpart ["."]
    exponent    ::= ("e" | "E") [sign] digitpart
    digitpart   ::= digit (["_"] digit)*
>>
    surrounded by optional blanks, with [inf], [infinity] and [nan] in any
    letter case.  The decimal value is rounded to the nearest binary64,
    ties to even.  The blanks that [float] removes are fewer than those of
    [str.strip]: the separators 0x1c..0x1f are not among them. *)

Definition is_float_space (c : ascii) : bool :=
  let n := nat_of_ascii c in
  ((9 <=? n) && (n <=? 13)) || (n =? 32) || (n =? 133) || (n =? 160).

Definition is_digit (c : ascii) : bool :=
  let n := nat_of_ascii c in (48 <=? n) && (n <=? 57).

Definition digit_val (c : ascii) : Z := Z.of_nat (nat_of_ascii c - 48).

Definition is_char (s : string) (c : ascii) : bool :=
  match s with
  | String a EmptyString => Ascii.eqb a c
  | _ => false
  end.

(** The rest of a [digitpart] whose first digits gave [acc]: returns the
    number read, how many digits were read here, and what follows. *)
Fixpoint digits_go (s : str) (acc : Z) (n : nat) : Z * nat * str :=
  match s with
  | c :: s' =>
      if is_digit c then digits_go s' (10 * acc + digit_val c)%Z (S n)
      else if is_char "_" c then
        match s' with
        | d :: s'' =>
            if is_digit d then digits_go s'' (10 * acc + digit_val d)%Z (S n)
            else (acc, n, s)
        | [] => (acc, n, s)
        end
      else (acc, n, s)
  | [] => (acc, n, s)
  end.

Definition digitpart (s : str) (acc : Z) : option (Z * nat * str) :=
  match s with
  | c :: s' =>
      if is_digit c then Some (digits_go s' (10 * acc + digit_val c)%Z 1)
      else None
  | [] => None
  end.

Definition sign (s : str) : bool * str :=
  match s with
  | c :: s' =>
      if is_char "-" c then (true, s')
      else if is_char "+" c then (false, s')
      else (false, s)
  | [] => (false, s)
  end.

(** [number]: the digits with the point removed and the number of digits
    after the point. *)
Definition number (s : str) : option (Z * nat * str) :=
  match digitpart s 0 with
  | Some (ip, _, r) =>
      match r with
      | c :: r' =>
          if is_char "." c then
            match digitpart r' ip with
            | Some (m, k, r'') => Some (m, k, r'')
            | None => Some (ip, 0, r')
            end
          else Some (ip, 0, r)
      | [] => Some (ip, 0, r)
      end
  | None =>
      match s with
      | c :: r' => if is_char "." c then digitpart r' 0 else None
      | [] => None
      end
  end.

Definition exponent (s : str) : option Z :=
  match s with
  | [] => Some 0%Z
  | c :: s' =>
      if is_char "e" c || is_char "E" c then
        let (neg, s'') := sign s' in
        match digitpart s'' 0 with
        | Some (e, _, []) => Some (if neg then (- e)%Z else e)
        | _ => None
        end
      else None
  end.

(** [m * 10^e] with sign [neg], correctly rounded: the quotient of two
    integers, rounded once. *)
Definition decimal_to_float (neg : bool) (m e : Z) : float :=
  match m with
  | Zpos p =>
      let num := (p * 10 ^ Z.to_pos e)%positive in
      let den := (10 ^ Z.to_pos (- e))%positive in
      SF2Prim (SFdiv prec emax
                 (S754_finite neg (if (0 <? e)%Z then num else p) 0)
                 (S754_finite false (if (e <? 0)%Z then den else 1) 0))
  | _ => if neg then neg_zero else zero
  end.

Definition lower (c : ascii) : ascii :=
  let n := nat_of_ascii c in
  if (65 <=? n) && (n <=? 90) then ascii_of_nat (n + 32) else c.

Definition py_float (s : str) : result float :=
  let (neg, body) := sign (strip_by is_float_space s) in
  let word := map lower body in
  if str_eqb word (lit "inf") || str_eqb word (lit "infinity")
  then Ok (if neg then neg_infinity else infinity)
  else if str_eqb word (lit "nan") then Ok nan
  else
    match number body with
    | Some (m, k, r) =>
        match exponent r with
        | Some e => Ok (decimal_to_float neg m (e - Z.of_nat k))
        | None => Raise ValueError
        end
    | None => Raise ValueError
    end.

(** ** The frame decoder: [parse_data] *)

Record plotdict : Type := {
  TscaleUnits : str;
  Tscale : float;
  coupling : str;
  Vscale : str;
  VscaleUnits : str;
  VoltageStats : str;
  SignalStats : str;
  ch1 : list float
}.

(** [raw_data[2].split()[2][:2]] *)
Definition TscaleUnits_of (raw_data : list str) : result str :=
  line <- index raw_data 2 ;;
  tok <- index (split_ws line) 2 ;;
  Ok (slice_to tok 2).

(** [float(raw_data[3].split()[-1])] *)
Definition Tscale_of (raw_data : list str) : result float :=
  line <- index raw_data 3 ;;
  tok <- index_neg (split_ws line) 1 ;;
  py_float tok.

(** [if plotdict['TscaleUnits'] == 'mS': plotdict['Tscale'] /= 1000] *)
Definition scale_Tscale (units : str) (v : float) : float :=
  if str_eqb units (lit "mS") then (v / 1000)%float else v.

(** [raw_data[4].split()[2].replace(',', '')] *)
Definition coupling_of (raw_data : list str) : result str :=
  line <- index raw_data 4 ;;
  tok <- index (split_ws line) 2 ;;
  Ok (str_replace (lit ",") [] tok).

(** [raw_data[4].split()[4]] *)
Definition Vscale_of (raw_data : list str) : result str :=
  line <- index raw_data 4 ;;
  index (split_ws line) 4.

(** ['mV' if plotdict['Vscale'][-6] == 'm' else 'V'] *)
Definition VscaleUnits_of (vscale : str) : result str :=
  c <- index_neg vscale 6 ;;
  Ok (if is_char "m" c then lit "mV" else lit "V").

(** [raw_data[n].strip().replace(', ','\n')], for [n] 8 and 9. *)
Definition stats_of (raw_data : list str) (n : nat) : result str :=
  line <- index raw_data n ;;
  Ok (str_replace (lit ", ") [lf] (strip line)).

(** [float(i.split('\t')[1])] *)
Definition sample_of (i : str) : result float :=
  field <- index (str_split [tab] i) 1 ;;
  py_float field.

(** [np.array([float(i.split('\t')[1]) for i in raw_data[12:-2]])] *)
Definition ch1_of (raw_data : list str) : result (list float) :=
  comprehension sample_of (slice_between raw_data 12 2).

(** The dictionary as it stands before the assertion: the assignments are
    evaluated in the order of the source, so the first failing one decides
    the exception. *)
Definition fill_plotdict (raw_data : list str) : result plotdict :=
  units <- TscaleUnits_of raw_data ;;
  v <- Tscale_of raw_data ;;
  cpl <- coupling_of raw_data ;;
  vscale <- Vscale_of raw_data ;;
  vunits <- VscaleUnits_of vscale ;;
  vstats <- stats_of raw_data 8 ;;
  sstats <- stats_of raw_data 9 ;;
  samples <- ch1_of raw_data ;;
  Ok {| TscaleUnits := units;
        Tscale := scale_Tscale units v;
        coupling := cpl;
        Vscale := vscale;
        VscaleUnits := vunits;
        VoltageStats := vstats;
        SignalStats := sstats;
        ch1 := samples |}.

(** [assert cond] *)
Definition assert (cond : bool) : result unit :=
  if cond then Ok tt else Raise AssertionError.

Definition parse_data (raw_data : list str) : result plotdict :=
  plotdict <- fill_plotdict raw_data ;;
  _ <- assert (length (ch1 plotdict) =? 2048) ;;
  Ok plotdict.

(** ** The acquisition reader: [get_data]

    The serial line is a schedule: the list of byte chunks that the device
    delivers during the successive [sleep(0.1)] calls of the reader (an empty
    chunk is an interval without traffic, and an exhausted schedule is a
    line that stays silent).  The messages that [get_data] prints are left
    out. *)

(** The [serial.Serial] object: the bytes received and not yet read, and
    whether the port is open. *)
Record Serial : Type := {
  in_buffer : list byte;
  is_open : bool
}.

(** [serial.Serial(port, BOUND_RATE, timeout=1)] followed by
    [reset_input_buffer()]. *)
Definition open_port : Serial := {| in_buffer := []; is_open := true |}.

Definition in_waiting (p : Serial) : nat := length (in_buffer p).

(** [p.read(n)] *)
Definition read (p : Serial) (n : nat) : list byte * Serial :=
  (firstn n (in_buffer p),
   {| in_buffer := skipn n (in_buffer p); is_open := is_open p |}).

Definition close (p : Serial) : Serial :=
  {| in_buffer := in_buffer p; is_open := false |}.

(** What happens to the port while the program sleeps: [chunk] arrives. *)
Definition arrive (chunk : list byte) (p : Serial) : Serial :=
  {| in_buffer := in_buffer p ++ chunk; is_open := is_open p |}.

(** The local variables of [get_data] in its second loop. *)
Record reader : Type := {
  serial_port : Serial;
  buffer : list byte;
  prev_buffer_size : nat
}.

Definition sleep (chunk : list byte) (st : reader) : reader :=
  {| serial_port := arrive chunk (serial_port st);
     buffer := buffer st;
     prev_buffer_size := prev_buffer_size st |}.

(** [while serial_port.in_waiting == 0: sleep(0.1)].  [None]: the loop never
    ends, because the line stays silent. *)
Fixpoint wait_for_data (line : list (list byte)) (p : Serial)
  : option (list (list byte) * Serial) :=
  if in_waiting p =? 0 then
    match line with
    | [] => None
    | chunk :: line' => wait_for_data line' (arrive chunk p)
    end
  else Some (line, p).

(** [if serial_port.in_waiting > 0: buffer += serial_port.read(...)] *)
Definition update_buffer (st : reader) : reader :=
  if 0 <? in_waiting (serial_port st) then
    let (data, p) := read (serial_port st) (in_waiting (serial_port st)) in
    {| serial_port := p;
       buffer := buffer st ++ data;
       prev_buffer_size := prev_buffer_size st |}
  else st.

(** [prev_buffer_size == len(buffer) and len(buffer) != 0] *)
Definition exit_condition (st : reader) : bool :=
  (prev_buffer_size st =? length (buffer st))
  && negb (length (buffer st) =? 0).

(** One poll cycle: the body of [while True] up to [sleep]; the boolean
    tells whether the cycle ended in [break]. *)
Definition poll (st : reader) : reader * bool :=
  let st1 := update_buffer st in
  if exit_condition st1 then (st1, true)
  else ({| serial_port := serial_port st1;
           buffer := buffer st1;
           prev_buffer_size := length (buffer st1) |}, false).

(** The [while True] loop.  On a line that stays silent, a cycle that does
    not break leaves the state as it found it, so the loop never ends
    ([None]) when one more cycle does not break either. *)
Fixpoint receive (line : list (list byte)) (st : reader)
  : option (list (list byte) * reader) :=
  let (st1, stop) := poll st in
  if stop then Some (line, st1)
  else
    match line with
    | chunk :: line' => receive line' (sleep chunk st1)
    | [] =>
        let (st2, stop2) := poll st1 in
        if stop2 then Some ([], st2) else None
    end.

(** [str(line, 'ascii')] *)
Definition str_ascii (line : list byte) : result str :=
  comprehension
    (fun b => if Byte.to_nat b <? 128 then Ok (ascii_of_byte b)
              else Raise UnicodeDecodeError)
    line.

Definition crlf : list byte := [byte_of_ascii cr; byte_of_ascii lf].

(** How a call ends: it returns, it raises, or it never comes back. *)
Inductive outcome (A : Type) : Type :=
| Returns (a : A)
| Raises (e : exn)
| Hangs.
Arguments Raises {A} e.
Arguments Hangs {A}.

(** A run of [get_data]: how it ended, the port as it leaves it, the bytes
    it had accumulated and the part of the schedule not yet consumed. *)
Record run : Type := {
  ending : outcome (list str);
  port_after : Serial;
  received : list byte;
  line_after : list (list byte)
}.

Definition get_data (line : list (list byte)) : run :=
  let p0 := open_port in
  match wait_for_data line p0 with
  | None =>
      {| ending := Hangs; port_after := p0;
         received := []; line_after := [] |}
  | Some (line1, p1) =>
      match receive line1 {| serial_port := p1; buffer := [];
                             prev_buffer_size := 0 |} with
      | None =>
          {| ending := Hangs; port_after := p1;
             received := []; line_after := [] |}
      | Some (line2, st) =>
          match comprehension str_ascii (split Byte.eqb crlf (buffer st)) with
          | Raise e =>
              {| ending := Raises e; port_after := serial_port st;
                 received := buffer st; line_after := line2 |}
          | Ok raw_data =>
              {| ending := Returns raw_data;
                 port_after := close (serial_port st);
                 received := buffer st; line_after := line2 |}
          end
      end
  end.

(** ** The statistics printer: [print_info]

    A printing computation yields the lines it has printed and how it ended;
    an exception keeps what was printed before it. *)

Definition io (A : Type) : Type := (list str * result A)%type.

Definition io_bind {A B} (m : io A) (k : A -> io B) : io B :=
  match m with
  | (out, Ok a) => let (out', r) := k a in (out ++ out', r)
  | (out, Raise e) => (out, Raise e)
  end.

Notation "x <~ m ;; k" := (io_bind m (fun x => k))
  (at level 61, m at next level, right associativity) : py_scope.

Definition print (s : str) : io unit := ([s], Ok tt).

Definition lift {A} (r : result A) : io A := ([], r).

(** [for x in l: body(x)] *)
Fixpoint for_each {A} (body : A -> io unit) (l : list A) : io unit :=
  match l with
  | [] => ([], Ok tt)
  | x :: l' => _ <~ body x ;; for_each body l'
  end.

(** [parts = val.split(":")] and the two items that the format call reads,
    [parts[0]] and [parts[1]]. *)
Definition parts_of (val : str) : result (str * str) :=
  let parts := str_split (lit ":") val in
  key <- index parts 0 ;;
  value <- index parts 1 ;;
  Ok (key, value).

Definition delimiter : str := repeat "-"%char 60.

(** ["Settings: {} coupling, \tresolution: {}, \tunits: {}, {}".format(...)] *)
Definition settings_line (d : plotdict) : str :=
  lit "Settings: " ++ coupling d ++ lit " coupling, " ++ [tab]
  ++ lit "resolution: " ++ Vscale d ++ lit ", " ++ [tab]
  ++ lit "units: " ++ VscaleUnits d ++ lit ", " ++ TscaleUnits d.

(** ["{}:\t\t{} {}".format(parts[0], parts[1], plotdict["VscaleUnits"])] *)
Definition voltage_line (units : str) (kv : str * str) : str :=
  fst kv ++ lit ":" ++ [tab; tab] ++ snd kv ++ lit " " ++ units.

(** ["{}:\t\t{} Hz"] for the key [Freq], ["{}:\t\t{}"] otherwise. *)
Definition signal_line (kv : str * str) : str :=
  if str_eqb (fst kv) (lit "Freq")
  then fst kv ++ lit ":" ++ [tab; tab] ++ snd kv ++ lit " Hz"
  else fst kv ++ lit ":" ++ [tab; tab] ++ snd kv.

Definition print_info (d : plotdict) : io unit :=
  _ <~ print delimiter ;;
  _ <~ print (settings_line d) ;;
  _ <~ for_each (fun val => kv <~ lift (parts_of val) ;;
                            print (voltage_line (VscaleUnits d) kv))
                (str_split [lf] (VoltageStats d)) ;;
  _ <~ for_each (fun val => kv <~ lift (parts_of val) ;;
                            print (signal_line kv))
                (str_split [lf] (SignalStats d)) ;;
  print delimiter.

(** ** The main loop

    Plotting is the work of matplotlib and stays abstract: [plot fft d] is
    the outcome of the plotting block for the flag [--fft] and the record
    [d].  Each cycle of the loop opens the port anew; [cycles] lists the
    schedules of the line seen by the successive calls of [get_data], and
    past its end the line is silent. *)

(** How the program ends: an uncaught exception ends the process, or the
    program waits for data for ever. *)
Inductive fate : Type :=
| Terminated (e : exn)
| Waiting.

Record execution : Type := {
  stdout : list str;
  cycles_completed : nat;
  how : fate
}.

Section Main.
Variable plot : bool -> plotdict -> result unit.
Variable fft : bool.

(** The body of [while True], after [get_data] has returned. *)
Definition present (raw_data : list str) : io unit :=
  d <~ lift (parse_data raw_data) ;;
  _ <~ print_info d ;;
  lift (plot fft d).

Definition stopped (out : list str) (f : fate) : execution :=
  {| stdout := out; cycles_completed := 0; how := f |}.

Definition after_cycle (out : list str) (rest : execution) : execution :=
  {| stdout := out ++ stdout rest;
     cycles_completed := S (cycles_completed rest);
     how := how rest |}.

(** [while True: ...]: there is no [try], so the first exception of a
    cycle leaves the loop and the program. *)
Fixpoint main (cycles : list (list (list byte))) : execution :=
  match cycles with
  | [] => stopped [] Waiting
  | line :: cycles' =>
      match ending (get_data line) with
      | Hangs => stopped [] Waiting
      | Raises e => stopped [] (Terminated e)
      | Returns raw_data =>
          match present raw_data with
          | (out, Raise e) => stopped out (Terminated e)
          | (out, Ok _) => after_cycle out (main cycles')
          end
      end
  end.

(** The cycle fed by [line] runs to its end without an exception. *)
Definition cycle_completes (line : list (list byte)) : bool :=
  match ending (get_data line) with
  | Returns raw_data => is_ok (snd (present raw_data))
  | _ => false
  end.
End Main.

(** ** Reference notions used in the statements *)

(** After the specification's words, "[time_scale] is always expressed in
    seconds after normalization, independent of [time_unit]": the value [v],
    read in the unit [units], converted to seconds. *)
Definition in_seconds (units : str) (v : float) : float :=
  if str_eqb units (lit "uS") then (v / 1000000)%float
  else if str_eqb units (lit "mS") then (v / 1000)%float
  else v.

(** The transmission [raw_data] with line [n] replaced by [s]. *)
Fixpoint with_line (n : nat) (s : str) (raw_data : list str) {struct raw_data}
  : list str :=
  match raw_data, n with
  | [], _ => []
  | _ :: l, O => s :: l
  | x :: l, S n' => x :: with_line n' s l
  end.

(** One item of a statistics line. *)
Definition stats_item (kv : str * str) : str := fst kv ++ lit ":" ++ snd kv.

(** A statistics line as the device writes it: [key:value] items separated
    by a comma and a blank. *)
Definition stats_line (kvs : list (str * str)) : str :=
  join (lit ", ") (map stats_item kvs).

(** Characters that never occur inside a key or a value of such a line. *)
Definition plain (c : ascii) : bool :=
  negb (is_char "," c || is_char ":" c || Ascii.eqb lf c).

Definition plain_pair (kv : str * str) : Prop :=
  forallb plain (fst kv) = true /\ forallb plain (snd kv) = true.

(** The first character, if any, is not a blank. *)
Definition unpadded (s : str) : bool :=
  match s with
  | c :: _ => negb (is_space c)
  | [] => true
  end.

(** The state at the head of the [while True] loop. *)
Definition at_head (pending buf : list byte) (o : bool) : reader :=
  {| serial_port := {| in_buffer := pending; is_open := o |};
     buffer := buf;
     prev_buffer_size := length buf |}.

(** The run of [get_data] whose loops have ended with the buffer [buf] and
    the port read empty, [rest] being what the line has still to deliver. *)
Definition finish (buf : list byte) (rest : list (list byte)) : run :=
  match comprehension str_ascii (split Byte.eqb crlf buf) with
  | Raise e =>
      {| ending := Raises e;
         port_after := {| in_buffer := []; is_open := true |};
         received := buf; line_after := rest |}
  | Ok raw_data =>
      {| ending := Returns raw_data;
         port_after := {| in_buffer := []; is_open := false |};
         received := buf; line_after := rest |}
  end.

(** The statistics lines that the device writes: at least one item, no
    comma, colon or line feed inside a key or a value, no blank at either
    end of the line. *)
Definition device_stats (kvs : list (str * str)) : Prop :=
  kvs <> []
  /\ Forall plain_pair kvs
  /\ unpadded (stats_line kvs) = true
  /\ unpadded (rev (stats_line kvs)) = true.

(** ** Sample transmissions *)

Definition str_of_nat (n : nat) : str :=
  lit (NilEmpty.string_of_uint (Nat.to_uint n)).

(** [n] sample lines [index<TAB>value]. *)
Definition sample_lines (n : nat) (value : string) : list str :=
  map (fun i => str_of_nat i ++ [tab] ++ lit value) (seq 0 n).

(** A transmission in the layout of the device: twelve lines of header and
    statistics, the sample lines, and two closing lines. *)
Definition frame (units value label vstats sstats : string) (n : nat)
  : list str :=
  [ lit "DLO-138 hosted at https://github.com/ardyesp/DLO-138, Version 1.0";
    lit "Net sampling time (us): 81920";
    lit "Timebase: 1 " ++ lit units ++ lit "/div";
    lit "Actual Timebase (us): " ++ lit value;
    lit "CH1 Coupling: DC, Range: " ++ lit label;
    lit "CH2 Coupling: GND, Range: 0.5V/div";
    [];
    lit "CH1 Stats";
    lit vstats;
    lit sstats;
    [];
    lit "Time" ++ [tab] ++ lit "CH1" ]
  ++ sample_lines n "1.5"
  ++ [ []; [] ].

(** The same transmission as bytes on the line. *)
Definition on_the_wire (raw_data : list str) : list byte :=
  map byte_of_ascii (join [cr; lf] raw_data).

Definition frame_mS : list str :=
  frame "mS" "2.5" "200mV/div" "Vmax:1.2V, Vmin:-1.2V" "Freq:1000Hz, Duty:50%" 2048.

Definition frame_uS : list str :=
  frame "uS" "100" "20mV/div" "Vmax:1.0V, Vmin:-1.0V" "Freq:1000Hz, Duty:50%" 2048.

Definition dict_mS : plotdict :=
  {| TscaleUnits := lit "mS";
     Tscale := 0.0025%float;
     coupling := lit "DC";
     Vscale := lit "200mV/div";
     VscaleUnits := lit "mV";
     VoltageStats := lit "Vmax:1.2V" ++ [lf] ++ lit "Vmin:-1.2V";
     SignalStats := lit "Freq:1000Hz" ++ [lf] ++ lit "Duty:50%";
     ch1 := repeat 1.5%float 2048 |}.

Definition dict_uS : plotdict :=
  {| TscaleUnits := lit "uS";
     Tscale := 100%float;
     coupling := lit "DC";
     Vscale := lit "20mV/div";
     VscaleUnits := lit "mV";
     VoltageStats := lit "Vmax:1.0V" ++ [lf] ++ lit "Vmin:-1.0V";
     SignalStats := lit "Freq:1000Hz" ++ [lf] ++ lit "Duty:50%";
     ch1 := repeat 1.5%float 2048 |}.

(** A transmission cut short: one sample line instead of 2048. *)
Definition frame_short : list str :=
  frame "uS" "100" "20mV/div" "Vmax:1.0V, Vmin:-1.0V" "Freq:1000Hz, Duty:50%" 1.


(** Statistics lines without any colon. *)
Definition frame_no_colon : list str :=
  frame "uS" "100" "20mV/div" "Vmax 1.0V, Vmin -1.0V" "Freq 1000Hz" 2048.

(** Matplotlib doing its work without complaint. *)
Definition plot_ok (fft : bool) (d : plotdict) : result unit := Ok tt.

(** ** The spectrum plot: [plot_fft]

    Of [plot_fft], the part that the program computes itself: the time axis,
    the duration of the capture and the sampling period [T] that is handed
    to [fftfreq].  What follows in the source are calls into scipy and
    matplotlib. *)

(** The exceptions of the plotting code. *)
Inductive plot_exn : Type :=
| UnboundLocalError   (* a local variable read before any assignment *)
| ZeroDivisionError.  (* float division by zero *)

Inductive attempt (A : Type) : Type :=
| Done (a : A)
| Failed (e : plot_exn).
Arguments Failed {A} e.

(** [float(i)] for an index or a length of the program. *)
Definition float_of_nat (i : nat) : float :=
  of_uint63 (Uint63.of_Z (Z.of_nat i)).

(** [time = [i * plotdict['Tscale']/25 for i in range(2048)]] *)
Definition time_axis (d : plotdict) : list float :=
  map (fun i => (float_of_nat i * Tscale d / 25)%float) (seq 0 2048).

Definition warning : str := lit "WARNING: something is really wrong".

(** The [if]/[elif] chain on [TscaleUnits]: what it prints, and [duration]
    if the chain has assigned it.  [time[-1]] exists, the axis having 2048
    points. *)
Definition duration_of (d : plotdict) : list str * option float :=
  let t := last (time_axis d) 0%float in
  if str_eqb (TscaleUnits d) (lit "uS") then ([], Some (t / 1000000)%float)
  else if str_eqb (TscaleUnits d) (lit "mS") then ([], Some (t / 1000)%float)
  else if str_eqb (TscaleUnits d) (lit "S") then ([], Some t)
  else ([warning], None).

(** [plot_fft] up to [T = duration/N], with [N = len(plotdict['ch1'])]: the
    lines printed, and [T] or the exception. *)
Definition plot_fft (d : plotdict) : list str * attempt float :=
  let (out, duration) := duration_of d in
  let N := length (ch1 d) in
  match duration with
  | None => (out, Failed UnboundLocalError)
  | Some x =>
      if N =? 0 then (out, Failed ZeroDivisionError)
      else (out, Done (x / float_of_nat N)%float)
  end.

(** ** Further notions used in the statements *)

(** Made of blanks only. *)
Definition blank (s : str) : bool := forallb is_space s.

(** Below 0x80. *)
Definition is_ascii_byte (b : byte) : bool := Byte.to_nat b <? 128.

Definition is_ascii_char (c : ascii) : bool := nat_of_ascii c <? 128.

(** * Properties *)

Unset Implicit Arguments.

(** ** The error monad *)

Lemma bind_Ok A B (m : result A) (k : A -> result B) (b : B) :
  bind m k = Ok b -> exists a, m = Ok a /\ k a = Ok b.
Proof.
  destruct m as [a|e]; simpl; intros H.
  - exists a; auto.
  - discriminate.
Qed.

(** Reads the successive steps out of a successful sequence of binds. *)
Ltac unbind H :=
  repeat match type of H with
    | bind _ _ = Ok _ =>
        let a := fresh "a" in
        let E := fresh "E" in
        apply bind_Ok in H; destruct H as (a & E & H)
    end.

Lemma comprehension_length A B (f : A -> result B) (l : list A) (r : list B) :
  comprehension f l = Ok r -> length r = length l.
Proof.
  revert r; induction l as [|x l IH]; simpl; intros r H.
  - injection H as <-; reflexivity.
  - unbind H. injection H as <-. simpl. f_equal. auto.
Qed.

(** ** Equality of strings *)

Lemma starts_with_same_length (a b : str) :
  length a = length b -> starts_with Ascii.eqb a b = true -> a = b.
Proof.
  revert b; induction a as [|x a IH]; destruct b as [|y b]; simpl;
    try discriminate; auto.
  intros L H. apply andb_true_iff in H as [Hx Hs].
  apply Ascii.eqb_eq in Hx. subst y. f_equal. apply IH; auto.
Qed.

Lemma starts_with_refl (a : str) : starts_with Ascii.eqb a a = true.
Proof.
  induction a as [|x a IH]; simpl; auto.
  rewrite Ascii.eqb_refl; auto.
Qed.

Lemma str_eqb_eq (a b : str) : str_eqb a b = true <-> a = b.
Proof.
  unfold str_eqb; split.
  - intros H. apply andb_true_iff in H as [L S].
    apply Nat.eqb_eq in L. apply starts_with_same_length; auto.
  - intros ->. rewrite Nat.eqb_refl, starts_with_refl; reflexivity.
Qed.

Lemma str_eqb_neq (a b : str) : str_eqb a b = false <-> a <> b.
Proof.
  rewrite <- str_eqb_eq. destruct (str_eqb a b); split; congruence.
Qed.

(** ** What a returned record says about the transmission *)

Lemma fill_plotdict_Ok (raw : list str) (d : plotdict) :
  fill_plotdict raw = Ok d ->
  exists v,
    TscaleUnits_of raw = Ok (TscaleUnits d)
    /\ Tscale_of raw = Ok v
    /\ Tscale d = scale_Tscale (TscaleUnits d) v
    /\ coupling_of raw = Ok (coupling d)
    /\ Vscale_of raw = Ok (Vscale d)
    /\ VscaleUnits_of (Vscale d) = Ok (VscaleUnits d)
    /\ stats_of raw 8 = Ok (VoltageStats d)
    /\ stats_of raw 9 = Ok (SignalStats d)
    /\ ch1_of raw = Ok (ch1 d).
Proof.
  unfold fill_plotdict; intros H. unbind H.
  injection H as <-; simpl. exists a0. repeat split; assumption.
Qed.

Lemma parse_data_Ok (raw : list str) (d : plotdict) :
  parse_data raw = Ok d <->
  fill_plotdict raw = Ok d /\ length (ch1 d) = 2048.
Proof.
  unfold parse_data; split.
  - intros H. unbind H. injection H as <-.
    split; auto. unfold assert in E0.
    destruct (length (ch1 a) =? 2048) eqn:L; try discriminate.
    apply Nat.eqb_eq; auto.
  - intros [-> L]. simpl. rewrite L. reflexivity.
Qed.

(** ** C1: the sample count *)

(** C1.  Whenever the assignments of [parse_data] go through, giving the
    dictionary [d], every line of [raw_data[12:-2]] has given one sample,
    and [parse_data] returns [d] exactly when there are 2048 of them; with
    any other number it raises [AssertionError].  A record that
    [parse_data] returns always holds 2048 samples. *)
Theorem parse_data_sample_count (raw : list str) (d : plotdict) :
  fill_plotdict raw = Ok d ->
  length (ch1 d) = length (slice_between raw 12 2)
  /\ (length (ch1 d) = 2048 -> parse_data raw = Ok d)
  /\ (length (ch1 d) <> 2048 -> parse_data raw = Raise AssertionError)
  /\ (forall d', parse_data raw = Ok d' ->
        d' = d /\ length (ch1 d') = 2048).
Proof.
  intros F. split; [|split; [|split]].
  - apply fill_plotdict_Ok in F as (v & _ & _ & _ & _ & _ & _ & _ & _ & C).
    unfold ch1_of in C. apply comprehension_length in C. exact C.
  - intros L. apply parse_data_Ok; auto.
  - intros L. unfold parse_data. rewrite F; simpl.
    apply Nat.eqb_neq in L. rewrite L. reflexivity.
  - intros d' H. apply parse_data_Ok in H as [F' L].
    rewrite F in F'. injection F' as ->. auto.
Qed.

Lemma parse_data_sample_count_witness :
  parse_data frame_mS = Ok dict_mS /\ length (ch1 dict_mS) = 2048.
Proof.
  assert (F : fill_plotdict frame_mS = Ok dict_mS) by (vm_compute; reflexivity).
  destruct (parse_data_sample_count frame_mS dict_mS F) as (_ & H & _).
  split; [apply H|]; vm_compute; reflexivity.
Defined.

(** The transmissions with 0, 2047 and 2049 sample lines are refused. *)
Example parse_data_wrong_counts :
  Forall (fun n => parse_data (frame "uS" "100" "20mV/div" "Vmax:1.0V"
                                 "Freq:1000Hz" n) = Raise AssertionError)
         [0; 2047; 2049].
Proof. repeat constructor; vm_compute; reflexivity. Qed.

(** The transmission of the specification's end-to-end test, from the bytes
    on the line to the record. *)
Example end_to_end :
  ending (get_data [on_the_wire frame_uS]) = Returns frame_uS
  /\ parse_data frame_uS = Ok dict_uS
  /\ snd (print_info dict_uS) = Ok tt.
Proof. repeat split; vm_compute; reflexivity. Qed.

(** ** C2, C3: the time scale *)

Lemma scale_Tscale_mS (v : float) : scale_Tscale (lit "mS") v = (v / 1000)%float.
Proof. reflexivity. Qed.

Lemma scale_Tscale_other (units : str) (v : float) :
  units <> lit "mS" -> scale_Tscale units v = v.
Proof.
  intros N. unfold scale_Tscale.
  apply str_eqb_neq in N. rewrite N. reflexivity.
Qed.

(** Two floats with different representations are different. *)
Lemma float_neq (x y : float) : Prim2SF x <> Prim2SF y -> x <> y.
Proof. intros H E; apply H; rewrite E; reflexivity. Qed.

(** C2.  In a record that [parse_data] returns, [TscaleUnits] is the unit
    token of line 2 and [Tscale] comes from the number [v] at the end of
    line 3: it is [v / 1000] when the unit token is exactly [mS], and [v]
    itself when the token is [uS] (as for any token other than [mS], such
    as [ms] or [MS]).  On the values of the specification: 2.5 with [mS]
    gives 0.0025, and 100 with [uS] gives 100. *)
Theorem Tscale_normalization (raw : list str) (d : plotdict) :
  parse_data raw = Ok d ->
  exists v,
    Tscale_of raw = Ok v
    /\ TscaleUnits_of raw = Ok (TscaleUnits d)
    /\ (TscaleUnits d = lit "mS" -> Tscale d = (v / 1000)%float)
    /\ (TscaleUnits d = lit "uS" -> Tscale d = v)
    /\ (TscaleUnits d <> lit "mS" -> Tscale d = v)
    /\ (py_float (lit "2.5") = Ok 2.5%float
        /\ scale_Tscale (lit "mS") 2.5 = 0.0025%float)
    /\ (py_float (lit "100") = Ok 100%float
        /\ scale_Tscale (lit "uS") 100 = 100%float).
Proof.
  intros H. apply parse_data_Ok in H as [F _].
  apply fill_plotdict_Ok in F as (v & U & V & T & _).
  exists v. repeat split; auto.
  - intros E. rewrite T, E. apply scale_Tscale_mS.
  - intros E. rewrite T, E. reflexivity.
  - intros N. rewrite T. apply scale_Tscale_other; auto.
Qed.

Lemma Tscale_normalization_witness :
  Tscale dict_mS = (2.5 / 1000)%float /\ Tscale dict_uS = 100%float.
Proof.
  assert (P1 : parse_data frame_mS = Ok dict_mS) by (vm_compute; reflexivity).
  assert (P2 : parse_data frame_uS = Ok dict_uS) by (vm_compute; reflexivity).
  destruct (Tscale_normalization frame_mS dict_mS P1) as (v1 & V1 & _ & M1 & _).
  destruct (Tscale_normalization frame_uS dict_uS P2) as (v2 & V2 & _ & _ & M2 & _).
  assert (E1 : Tscale_of frame_mS = Ok 2.5%float) by (vm_compute; reflexivity).
  assert (E2 : Tscale_of frame_uS = Ok 100%float) by (vm_compute; reflexivity).
  rewrite E1 in V1; injection V1 as <-.
  rewrite E2 in V2; injection V2 as <-.
  split; [apply M1 | apply M2]; reflexivity.
Defined.

(** C3, as stated, fails: with the unit [uS] and the value 100 the record
    holds 100, which is not 100 microseconds expressed in seconds. *)
Lemma Tscale_not_in_seconds :
  parse_data frame_uS = Ok dict_uS
  /\ Tscale_of frame_uS = Ok 100%float
  /\ TscaleUnits dict_uS = lit "uS"
  /\ Tscale dict_uS <> in_seconds (TscaleUnits dict_uS) 100.
Proof.
  repeat split; try (vm_compute; reflexivity).
  apply float_neq. vm_compute. discriminate.
Qed.

(** C3, amended.  [Tscale] is the number of line 3 divided by 1000 under
    the unit [mS] and the number itself under every other unit: it is the
    value in seconds for [mS] and for [S], and for [uS] it stays the number
    that the device sent, to be read with the unit label. *)
Theorem Tscale_depends_on_unit (raw : list str) (d : plotdict) :
  parse_data raw = Ok d ->
  exists v,
    Tscale_of raw = Ok v
    /\ Tscale d = (if str_eqb (TscaleUnits d) (lit "mS")
                   then (v / 1000)%float else v)
    /\ (TscaleUnits d = lit "mS" \/ TscaleUnits d = lit "S" ->
        Tscale d = in_seconds (TscaleUnits d) v)
    /\ (TscaleUnits d = lit "uS" -> Tscale d = v).
Proof.
  intros H. apply parse_data_Ok in H as [F _].
  apply fill_plotdict_Ok in F as (v & _ & V & T & _).
  exists v. repeat split; auto.
  - intros [E|E]; rewrite T, E; reflexivity.
  - intros E. rewrite T, E. reflexivity.
Qed.

Lemma Tscale_depends_on_unit_witness :
  Tscale dict_mS = in_seconds (lit "mS") 2.5%float
  /\ Tscale dict_uS = 100%float.
Proof.
  assert (P1 : parse_data frame_mS = Ok dict_mS) by (vm_compute; reflexivity).
  assert (P2 : parse_data frame_uS = Ok dict_uS) by (vm_compute; reflexivity).
  destruct (Tscale_depends_on_unit frame_mS dict_mS P1) as (v1 & V1 & _ & S1 & _).
  destruct (Tscale_depends_on_unit frame_uS dict_uS P2) as (v2 & V2 & _ & _ & S2).
  assert (E1 : Tscale_of frame_mS = Ok 2.5%float) by (vm_compute; reflexivity).
  assert (E2 : Tscale_of frame_uS = Ok 100%float) by (vm_compute; reflexivity).
  rewrite E1 in V1; injection V1 as <-.
  rewrite E2 in V2; injection V2 as <-.
  split; [apply S1; left | apply S2]; reflexivity.
Defined.

(** ** C4, C10: the voltage unit *)

Lemma index_neg_long A (l : list A) (k : nat) :
  0 < k -> k <= length l ->
  exists x, nth_error l (length l - k) = Some x /\ index_neg l k = Ok x.
Proof.
  intros K L. unfold index_neg, index.
  destruct (Nat.ltb_spec (length l) k) as [H|H]; [lia|].
  destruct (nth_error l (length l - k)) as [x|] eqn:E.
  - exists x; auto.
  - apply nth_error_None in E. lia.
Qed.

Lemma index_neg_short A (l : list A) (k : nat) :
  length l < k -> index_neg l k = Raise IndexError.
Proof.
  intros L. unfold index_neg.
  apply Nat.ltb_lt in L. rewrite L. reflexivity.
Qed.

Lemma VscaleUnits_of_Ok (label units : str) :
  VscaleUnits_of label = Ok units ->
  6 <= length label /\ (units = lit "mV" \/ units = lit "V").
Proof.
  unfold VscaleUnits_of. intros H.
  destruct (Nat.ltb_spec (length label) 6) as [L|L].
  - rewrite index_neg_short in H by auto. discriminate.
  - split; auto.
    destruct (index_neg label 6) as [c|]; unfold bind in H; [|discriminate].
    destruct (is_char "m" c); injection H as <-; [left | right]; reflexivity.
Qed.

(** C4.  For a voltage-scale label of at least six characters, the unit is
    decided by the character [c] at offset -6: [mV] when [c] is the letter
    [m], [V] for any other character.  In every record that [parse_data]
    returns the label has that length, the unit was decided in this way,
    and it is one of [mV] and [V]. *)
Theorem voltage_unit_inference (label : str) :
  6 <= length label ->
  exists c,
    nth_error label (length label - 6) = Some c
    /\ (c = "m"%char -> VscaleUnits_of label = Ok (lit "mV"))
    /\ (c <> "m"%char -> VscaleUnits_of label = Ok (lit "V"))
    /\ (forall raw d, parse_data raw = Ok d -> Vscale d = label ->
          VscaleUnits d = (if Ascii.eqb c "m" then lit "mV" else lit "V")
          /\ (VscaleUnits d = lit "mV" \/ VscaleUnits d = lit "V")).
Proof.
  intros L.
  destruct (index_neg_long _ label 6 ltac:(lia) L) as (c & N & I).
  assert (U : VscaleUnits_of label
              = Ok (if Ascii.eqb c "m" then lit "mV" else lit "V")).
  { unfold VscaleUnits_of. rewrite I. unfold bind, is_char.
    rewrite (Ascii.eqb_sym "m" c). reflexivity. }
  exists c. repeat split; auto.
  - intros ->. exact U.
  - intros Hc. apply Ascii.eqb_neq in Hc. rewrite Hc in U. exact U.
  - apply parse_data_Ok in H as [F _].
    apply fill_plotdict_Ok in F as (v & _ & _ & _ & _ & _ & V & _).
    rewrite H0, U in V. injection V as <-. reflexivity.
  - apply parse_data_Ok in H as [F _].
    apply fill_plotdict_Ok in F as (v & _ & _ & _ & _ & _ & V & _).
    apply VscaleUnits_of_Ok in V. tauto.
Qed.

Lemma voltage_unit_inference_witness :
  VscaleUnits_of (lit "200mV/div") = Ok (lit "mV")
  /\ VscaleUnits_of (lit "0.5V/div") = Ok (lit "V").
Proof.
  split.
  - destruct (voltage_unit_inference (lit "200mV/div")) as (c & N & M & _).
    + simpl; lia.
    + apply M. simpl in N. injection N as <-. reflexivity.
  - destruct (voltage_unit_inference (lit "0.5V/div")) as (c & N & _ & V & _).
    + simpl; lia.
    + apply V. simpl in N. injection N as <-. discriminate.
Defined.

(** The exceptions that the first two assignments can raise. *)
Lemma index_Raise A (l : list A) (i : nat) (e : exn) :
  index l i = Raise e -> e = IndexError.
Proof. unfold index; destruct (nth_error l i); congruence. Qed.

Lemma index_neg_Raise A (l : list A) (k : nat) (e : exn) :
  index_neg l k = Raise e -> e = IndexError.
Proof.
  unfold index_neg. destruct (length l <? k); [congruence|].
  apply index_Raise.
Qed.

Lemma py_float_Raise (s : str) (e : exn) :
  py_float s = Raise e -> e = ValueError.
Proof.
  unfold py_float.
  repeat match goal with
    | |- context [let (_, _) := ?x in _] => destruct x
    | |- context [if ?b then _ else _] => destruct b
    | |- context [match ?x with _ => _ end] => destruct x
    end; congruence.
Qed.

Lemma TscaleUnits_of_Raise (raw : list str) (e : exn) :
  TscaleUnits_of raw = Raise e -> e = IndexError.
Proof.
  unfold TscaleUnits_of.
  destruct (index raw 2) as [line|e1] eqn:E1; cbn [bind].
  - destruct (index (split_ws line) 2) as [tok|e2] eqn:E2; cbn [bind].
    + discriminate.
    + intros H; injection H as <-. eapply index_Raise; eauto.
  - intros H; injection H as <-. eapply index_Raise; eauto.
Qed.

Lemma Tscale_of_Raise (raw : list str) (e : exn) :
  Tscale_of raw = Raise e -> e = IndexError \/ e = ValueError.
Proof.
  unfold Tscale_of.
  destruct (index raw 3) as [line|e1] eqn:E1; cbn [bind].
  - destruct (index_neg (split_ws line) 1) as [tok|e2] eqn:E2; cbn [bind].
    + intros H. right. eapply py_float_Raise; eauto.
    + intros H; injection H as <-. left. eapply index_neg_Raise; eauto.
  - intros H; injection H as <-. left. eapply index_Raise; eauto.
Qed.





(** ** C5: quiescence detection *)

Lemma reader_at_head (st : reader) :
  prev_buffer_size st = length (buffer st) ->
  st = at_head (in_buffer (serial_port st)) (buffer st)
         (is_open (serial_port st)).
Proof.
  destruct st as [[p o] b n]; simpl. intros ->. reflexivity.
Qed.

(** A poll cycle that finds new bytes appends them and goes on. *)
Lemma poll_new_bytes (pending buf : list byte) (o : bool) :
  pending <> [] ->
  poll (at_head pending buf o) = (at_head [] (buf ++ pending) o, false).
Proof.
  intros N. unfold poll, update_buffer, exit_condition, at_head, read,
    in_waiting; simpl.
  destruct pending as [|b pending]; [congruence|]. simpl.
  rewrite firstn_all, skipn_all. simpl.
  replace (length buf =? length (buf ++ b :: pending)) with false.
  - reflexivity.
  - symmetry. apply Nat.eqb_neq. rewrite length_app. simpl. lia.
Qed.

(** A poll cycle that finds nothing new stops, once something was read. *)
Lemma poll_quiet (buf : list byte) (o : bool) :
  buf <> [] -> poll (at_head [] buf o) = (at_head [] buf o, true).
Proof.
  intros N. unfold poll, update_buffer, exit_condition, at_head; simpl.
  rewrite Nat.eqb_refl.
  destruct buf; [congruence|]. reflexivity.
Qed.

(** Before anything was read, a cycle without bytes changes nothing. *)
Lemma poll_nothing (o : bool) :
  poll (at_head [] [] o) = (at_head [] [] o, false).
Proof. reflexivity. Qed.

Lemma poll_stops_iff (st : reader) :
  prev_buffer_size st = length (buffer st) ->
  snd (poll st) = true
  <-> in_buffer (serial_port st) = [] /\ buffer st <> [].
Proof.
  intros I. rewrite (reader_at_head st I).
  generalize (in_buffer (serial_port st)) (buffer st) (is_open (serial_port st)).
  intros pending buf o. simpl.
  destruct pending as [|b pending].
  - destruct buf as [|c buf].
    + rewrite poll_nothing. simpl. split; [discriminate | intros [_ H]; congruence].
    + rewrite poll_quiet by discriminate. simpl.
      split; auto. split; [reflexivity | discriminate].
  - rewrite poll_new_bytes by discriminate. simpl.
    split; [discriminate | intros [H _]; discriminate].
Qed.

Lemma receive_stop (line : list (list byte)) (st st1 : reader) :
  poll st = (st1, true) -> receive line st = Some (line, st1).
Proof. intros H. destruct line; simpl; rewrite H; reflexivity. Qed.

Lemma receive_continue (chunk : list byte) (line : list (list byte))
      (st st1 : reader) :
  poll st = (st1, false) ->
  receive (chunk :: line) st = receive line (sleep chunk st1).
Proof. intros H. simpl. rewrite H. reflexivity. Qed.

Lemma sleep_at_head (chunk buf : list byte) (o : bool) :
  sleep chunk (at_head [] buf o) = at_head chunk buf o.
Proof. reflexivity. Qed.

(** The loop reads the bursts that follow one another and stops at the
    first interval without traffic, leaving the rest of the schedule. *)
Lemma receive_bursts (bursts rest : list (list byte)) :
  Forall (fun b => b <> []) bursts ->
  forall (pending buf : list byte) (o : bool),
    pending <> [] ->
    receive (bursts ++ [] :: rest) (at_head pending buf o)
    = Some (rest, at_head [] (buf ++ pending ++ concat bursts) o).
Proof.
  induction 1 as [|b bursts Hb _ IH]; intros pending buf o N; simpl app.
  - rewrite (receive_continue _ _ _ _ (poll_new_bytes pending buf o N)).
    rewrite sleep_at_head. simpl concat. rewrite app_nil_r.
    apply receive_stop. apply poll_quiet.
    destruct pending; [congruence|]. destruct buf; discriminate.
  - rewrite (receive_continue _ _ _ _ (poll_new_bytes pending buf o N)).
    rewrite sleep_at_head. rewrite IH by assumption.
    simpl concat. rewrite <- !app_assoc. reflexivity.
Qed.

(** The same on a schedule that ends with the last burst. *)
Lemma receive_last_bursts (bursts : list (list byte)) :
  Forall (fun b => b <> []) bursts ->
  forall (pending buf : list byte) (o : bool),
    pending <> [] ->
    receive bursts (at_head pending buf o)
    = Some ([], at_head [] (buf ++ pending ++ concat bursts) o).
Proof.
  induction 1 as [|b bursts Hb _ IH]; intros pending buf o N.
  - simpl. rewrite (poll_new_bytes pending buf o N).
    rewrite app_nil_r. rewrite poll_quiet; [reflexivity|].
    destruct pending; [congruence|]. destruct buf; discriminate.
  - rewrite (receive_continue _ _ _ _ (poll_new_bytes pending buf o N)).
    rewrite sleep_at_head. rewrite IH by assumption.
    simpl concat. rewrite <- !app_assoc. reflexivity.
Qed.

(** The first loop sleeps through the silent intervals and leaves the first
    burst in the port. *)
Lemma wait_for_data_idle (idle : nat) (b : list byte) (line : list (list byte)) :
  b <> [] ->
  wait_for_data (repeat [] idle ++ b :: line) open_port
  = Some (line, {| in_buffer := b; is_open := true |}).
Proof.
  intros N. induction idle as [|n IH]; simpl.
  - destruct b; [congruence|]. destruct line; reflexivity.
  - exact IH.
Qed.

Lemma wait_for_data_silent (idle : nat) :
  wait_for_data (repeat [] idle) open_port = None.
Proof. induction idle as [|n IH]; simpl; auto. Qed.

Lemma get_data_bursts (idle : nat) (b : list byte)
      (bursts rest : list (list byte)) :
  Forall (fun b => b <> []) (b :: bursts) ->
  get_data (repeat [] idle ++ (b :: bursts) ++ [] :: rest)
  = finish (concat (b :: bursts)) rest.
Proof.
  intros F. inversion F as [|? ? Hb Hbs]; subst.
  unfold get_data. simpl app.
  rewrite (wait_for_data_idle idle b _ Hb).
  change {| serial_port := {| in_buffer := b; is_open := true |};
            buffer := []; prev_buffer_size := 0 |}
    with (at_head b [] true).
  rewrite (receive_bursts bursts rest Hbs b [] true Hb).
  unfold finish, at_head. simpl.
  destruct (comprehension str_ascii _); reflexivity.
Qed.

Lemma get_data_last_bursts (idle : nat) (b : list byte)
      (bursts : list (list byte)) :
  Forall (fun b => b <> []) (b :: bursts) ->
  get_data (repeat [] idle ++ b :: bursts) = finish (concat (b :: bursts)) [].
Proof.
  intros F. inversion F as [|? ? Hb Hbs]; subst.
  unfold get_data.
  rewrite (wait_for_data_idle idle b _ Hb).
  change {| serial_port := {| in_buffer := b; is_open := true |};
            buffer := []; prev_buffer_size := 0 |}
    with (at_head b [] true).
  rewrite (receive_last_bursts bursts Hbs b [] true Hb).
  unfold finish, at_head. simpl.
  destruct (comprehension str_ascii _); reflexivity.
Qed.

(** C5, as stated, fails on its second half: when a poll cycle falls into
    the gap between two bursts, the reader returns there, with the first
    burst alone; the second burst is never read. *)
Lemma idle_gap_ends_transmission :
  received (get_data [["A"; "B"]; []; ["C"]; []]%byte) = ["A"; "B"]%byte
  /\ ending (get_data [["A"; "B"]; []; ["C"]; []]%byte)
     = Returns [lit "AB"]
  /\ line_after (get_data [["A"; "B"]; []; ["C"]; []]%byte) = [["C"]; []]%byte
  /\ received (get_data [["A"; "B"]; []; ["C"]; []]%byte)
     <> (["A"; "B"] ++ ["C"])%byte.
Proof. repeat split; try reflexivity. discriminate. Qed.

(** C5, amended.  A poll cycle declares completion exactly when it finds no
    new byte while the buffer is not empty.  So, after any number of silent
    intervals, the reader accumulates the bursts that arrive in consecutive
    poll cycles and returns their concatenation at the first cycle without
    traffic (or when the line has fallen silent for good), leaving what the
    line delivers later unread.  Two bursts come back as one transmission
    when no poll cycle falls between them; when one does, the transmission
    ends there with the first burst.  A line that never delivers a byte
    keeps the reader waiting for ever. *)
Theorem quiescence_detection (idle : nat) (b1 b2 : list byte)
        (bursts rest : list (list byte)) :
  b1 <> [] -> b2 <> [] -> Forall (fun b => b <> []) bursts ->
  (forall st, prev_buffer_size st = length (buffer st) ->
     (snd (poll st) = true
      <-> in_buffer (serial_port st) = [] /\ buffer st <> []))
  /\ get_data (repeat [] idle ++ (b1 :: bursts) ++ [] :: rest)
     = finish (concat (b1 :: bursts)) rest
  /\ get_data (repeat [] idle ++ [b1; b2] ++ [] :: rest)
     = finish (b1 ++ b2) rest
  /\ get_data (repeat [] idle ++ [b1] ++ [] :: b2 :: rest)
     = finish b1 (b2 :: rest)
  /\ get_data (repeat [] idle ++ b1 :: bursts)
     = finish (concat (b1 :: bursts)) []
  /\ ending (get_data (repeat [] idle)) = Hangs.
Proof.
  intros N1 N2 F. split; [|split; [|split; [|split; [|split]]]].
  - exact poll_stops_iff.
  - apply get_data_bursts. constructor; assumption.
  - rewrite (get_data_bursts idle b1 [b2] rest).
    + simpl. rewrite app_nil_r. reflexivity.
    + repeat constructor; assumption.
  - rewrite (get_data_bursts idle b1 [] (b2 :: rest)).
    + simpl. rewrite app_nil_r. reflexivity.
    + repeat constructor; assumption.
  - apply get_data_last_bursts. constructor; assumption.
  - unfold get_data. rewrite wait_for_data_silent. reflexivity.
Qed.

Lemma quiescence_detection_witness :
  received (get_data [[]; ["A"; "B"]; ["C"]; []; ["D"]]%byte)
  = ["A"; "B"; "C"]%byte
  /\ line_after (get_data [[]; ["A"; "B"]; ["C"]; []; ["D"]]%byte)
     = [["D"]]%byte.
Proof.
  destruct (quiescence_detection 1 ["A"; "B"]%byte ["C"]%byte [] [["D"]%byte])
    as (_ & _ & H & _).
  - discriminate.
  - discriminate.
  - constructor.
  - simpl in H. rewrite H. split; reflexivity.
Defined.

(** ** C7: closing the port *)

Lemma wait_for_data_open (line line' : list (list byte)) (p p' : Serial) :
  wait_for_data line p = Some (line', p') -> is_open p' = is_open p.
Proof.
  revert p; induction line as [|chunk line IH]; intros p; simpl.
  - destruct (in_waiting p =? 0); [discriminate|].
    intros H; injection H as _ <-. reflexivity.
  - destruct (in_waiting p =? 0).
    + intros H. apply IH in H. exact H.
    + intros H; injection H as _ <-. reflexivity.
Qed.

Lemma poll_open (st : reader) :
  is_open (serial_port (fst (poll st))) = is_open (serial_port st).
Proof.
  unfold poll, update_buffer.
  destruct (0 <? in_waiting (serial_port st)); simpl;
    match goal with |- context [exit_condition ?s] =>
      destruct (exit_condition s) end; reflexivity.
Qed.

Lemma receive_open (line line' : list (list byte)) (st st' : reader) :
  receive line st = Some (line', st') ->
  is_open (serial_port st') = is_open (serial_port st).
Proof.
  revert st; induction line as [|chunk line IH]; intros st; simpl;
    pose proof (poll_open st) as P;
    destruct (poll st) as [st1 stop]; simpl in P; destruct stop.
  - intros H; injection H as _ <-. exact P.
  - pose proof (poll_open st1) as P1.
    destruct (poll st1) as [st2 stop2]; simpl in P1.
    destruct stop2; [|discriminate].
    intros H; injection H as _ <-. congruence.
  - intros H; injection H as _ <-. exact P.
  - intros H. apply IH in H. rewrite H. exact P.
Qed.

Lemma comprehension_Raise A B (f : A -> result B) (l : list A) (e : exn) :
  comprehension f l = Raise e -> exists x, In x l /\ f x = Raise e.
Proof.
  induction l as [|x l IH]; simpl; [discriminate|].
  destruct (f x) as [y|e'] eqn:Fx; cbn [bind].
  - destruct (comprehension f l) as [ys|e'']; cbn [bind]; [discriminate|].
    intros H. destruct (IH H) as (z & Hz & Fz). exists z; auto.
  - intros H; injection H as <-. exists x; auto.
Qed.

Lemma str_ascii_Raise (line : list byte) (e : exn) :
  str_ascii line = Raise e -> e = UnicodeDecodeError.
Proof.
  intros H. apply comprehension_Raise in H as (b & _ & H).
  destruct (Byte.to_nat b <? 128); congruence.
Qed.

(** C7, as stated, fails: a byte above 0x7f makes the decoding raise
    before [close] is reached, and the exception leaves [get_data] with the
    port open. *)
Lemma port_left_open_on_decode_failure :
  ending (get_data [["A"; "255"; "B"]; []]%byte) = Raises UnicodeDecodeError
  /\ is_open (port_after (get_data [["A"; "255"; "B"]; []]%byte)) = true.
Proof. split; reflexivity. Qed.

(** C7, amended.  The port is closed when [get_data] returns.  The only
    exception that leaves [get_data] is the decoding error, and it leaves
    the port open, as does a wait that never ends. *)
Theorem port_closed_on_return (line : list (list byte)) :
  match ending (get_data line) with
  | Returns _ => is_open (port_after (get_data line)) = false
  | Raises e =>
      e = UnicodeDecodeError
      /\ is_open (port_after (get_data line)) = true
  | Hangs => is_open (port_after (get_data line)) = true
  end.
Proof.
  unfold get_data.
  destruct (wait_for_data line open_port) as [[line1 p1]|] eqn:W;
    [|reflexivity].
  apply wait_for_data_open in W. simpl in W.
  destruct (receive line1 _) as [[line2 st]|] eqn:R; simpl; [|exact W].
  apply receive_open in R. simpl in R.
  destruct (comprehension str_ascii _) as [raw|e] eqn:D; simpl.
  - reflexivity.
  - split; [|congruence].
    apply comprehension_Raise in D as (l & _ & D).
    apply (str_ascii_Raise l e D).
Qed.

(** ** C8: a decoding error and the main loop *)

Section MainLoop.
Variable plot : bool -> plotdict -> result unit.
Variable fft : bool.

Lemma present_parse_error (raw : list str) (e : exn) :
  parse_data raw = Raise e -> present plot fft raw = ([], Raise e).
Proof. unfold present. intros ->. reflexivity. Qed.

Lemma main_next_cycle (line : list (list byte)) (cycles : list (list (list byte))) :
  cycle_completes plot fft line = true ->
  how (main plot fft (line :: cycles)) = how (main plot fft cycles)
  /\ cycles_completed (main plot fft (line :: cycles))
     = S (cycles_completed (main plot fft cycles)).
Proof.
  unfold cycle_completes. simpl.
  destruct (ending (get_data line)) as [raw| |]; try discriminate.
  destruct (present plot fft raw) as [out [u|e]]; simpl; try discriminate.
  auto.
Qed.

Lemma main_decode_error (line : list (list byte))
      (cycles : list (list (list byte))) (raw : list str) (e : exn) :
  ending (get_data line) = Returns raw ->
  parse_data raw = Raise e ->
  main plot fft (line :: cycles) = stopped [] (Terminated e).
Proof.
  intros G P. simpl. rewrite G, (present_parse_error raw e P). reflexivity.
Qed.
End MainLoop.

(** C8, as stated, fails: a transmission cut short raises [AssertionError]
    in the first cycle and the program ends there; the transmission that
    the device sends next is never read. *)
Lemma decode_error_ends_program :
  how (main plot_ok false
         [[on_the_wire frame_short]; [on_the_wire frame_uS]])
  = Terminated AssertionError
  /\ cycles_completed (main plot_ok false
         [[on_the_wire frame_short]; [on_the_wire frame_uS]]) = 0.
Proof. split; vm_compute; reflexivity. Qed.

(** C8, amended.  The loop starts a new cycle only after a cycle that ran
    without an exception.  When [parse_data] raises in a cycle, after any
    number of completed cycles, the exception ends the program: nothing
    catches it, and whatever the device sends afterwards plays no part. *)
Theorem decode_error_terminates
        (plot : bool -> plotdict -> result unit) (fft : bool)
        (completed : list (list (list byte))) (line : list (list byte))
        (later : list (list (list byte))) (raw : list str) (e : exn) :
  forallb (cycle_completes plot fft) completed = true ->
  ending (get_data line) = Returns raw ->
  parse_data raw = Raise e ->
  how (main plot fft (completed ++ line :: later)) = Terminated e
  /\ cycles_completed (main plot fft (completed ++ line :: later))
     = length completed.
Proof.
  intros C G P. induction completed as [|l completed IH]; simpl app.
  - rewrite (main_decode_error plot fft line later raw e G P). auto.
  - simpl in C. apply andb_true_iff in C as [Cl C].
    destruct (main_next_cycle plot fft l (completed ++ line :: later) Cl)
      as [H1 H2].
    destruct (IH C) as [I1 I2].
    rewrite H1, H2, I1, I2. auto.
Qed.

Lemma decode_error_terminates_witness :
  how (main plot_ok true
         [[on_the_wire frame_uS]; [on_the_wire frame_short];
          [on_the_wire frame_uS]])
  = Terminated AssertionError.
Proof.
  apply (decode_error_terminates plot_ok true
           [[on_the_wire frame_uS]] [on_the_wire frame_short]
           [[on_the_wire frame_uS]] frame_short AssertionError).
  - vm_compute; reflexivity.
  - vm_compute; reflexivity.
  - vm_compute; reflexivity.
Defined.

(** ** Strings: stripping, replacing and splitting *)

Lemma drop_while_unpadded (s : str) :
  unpadded s = true -> drop_while is_space s = s.
Proof.
  destruct s as [|c s]; simpl; auto.
  destruct (is_space c); [discriminate | reflexivity].
Qed.

Lemma strip_unpadded (s : str) :
  unpadded s = true -> unpadded (rev s) = true -> strip s = s.
Proof.
  intros H1 H2. unfold strip, strip_by.
  rewrite (drop_while_unpadded s H1), (drop_while_unpadded (rev s) H2).
  apply rev_involutive.
Qed.

Lemma starts_with_other (c a : ascii) (sep s : str) :
  c <> a -> starts_with Ascii.eqb (c :: sep) (a :: s) = false.
Proof.
  intros N. simpl. apply Ascii.eqb_neq in N. rewrite N. reflexivity.
Qed.

(** A stretch without the first character of [old] is copied. *)
Lemma replace_go_copy (c : ascii) (old new x rest : str) :
  ~ In c x ->
  replace_go Ascii.eqb (c :: old) new (x ++ rest) 0
  = x ++ replace_go Ascii.eqb (c :: old) new rest 0.
Proof.
  induction x as [|a x IH]; intros N; [reflexivity|].
  simpl app. cbn [replace_go].
  rewrite starts_with_other by (intros ->; apply N; left; reflexivity).
  rewrite IH by (intros H; apply N; right; exact H).
  reflexivity.
Qed.

Lemma replace_comma_blank (new rest : str) :
  replace_go Ascii.eqb (lit ", ") new (lit ", " ++ rest) 0
  = new ++ replace_go Ascii.eqb (lit ", ") new rest 0.
Proof. reflexivity. Qed.

Lemma replace_join (new : str) (xs : list str) :
  Forall (fun x => ~ In ","%char x) xs ->
  str_replace (lit ", ") new (join (lit ", ") xs) = join new xs.
Proof.
  unfold str_replace, replace.
  induction 1 as [|x xs Hx Hxs IH]; [reflexivity|].
  destruct xs as [|y xs].
  - simpl join. rewrite <- (app_nil_r x) at 1.
    change (lit ", ") with (","%char :: lit " ").
    rewrite replace_go_copy by assumption.
    simpl. apply app_nil_r.
  - change (join (lit ", ") (x :: y :: xs))
      with (x ++ lit ", " ++ join (lit ", ") (y :: xs)).
    change (join new (x :: y :: xs)) with (x ++ new ++ join new (y :: xs)).
    change (lit ", ") with (","%char :: lit " ") at 1.
    rewrite replace_go_copy by assumption.
    change (","%char :: lit " ") with (lit ", ").
    rewrite replace_comma_blank, IH. reflexivity.
Qed.

(** Splitting at a single character [c]: a field without [c] is taken
    whole. *)
Lemma split_go_last (c : ascii) (x cur : str) :
  ~ In c x -> split_go Ascii.eqb [c] x 0 cur = [rev cur ++ x].
Proof.
  revert cur; induction x as [|a x IH]; intros cur N.
  - simpl. rewrite app_nil_r. reflexivity.
  - cbn [split_go].
    rewrite starts_with_other by (intros ->; apply N; left; reflexivity).
    rewrite IH by (intros H; apply N; right; exact H).
    simpl. rewrite <- app_assoc. reflexivity.
Qed.

Lemma split_go_field (c : ascii) (x rest cur : str) :
  ~ In c x ->
  split_go Ascii.eqb [c] (x ++ c :: rest) 0 cur
  = (rev cur ++ x) :: split_go Ascii.eqb [c] rest 0 [].
Proof.
  revert cur; induction x as [|a x IH]; intros cur N.
  - simpl app. cbn [split_go starts_with].
    rewrite Ascii.eqb_refl. simpl. rewrite app_nil_r. reflexivity.
  - simpl app. cbn [split_go].
    rewrite starts_with_other by (intros ->; apply N; left; reflexivity).
    rewrite IH by (intros H; apply N; right; exact H).
    simpl. rewrite <- app_assoc. reflexivity.
Qed.

Lemma split_join (c : ascii) (xs : list str) :
  xs <> [] -> Forall (fun x => ~ In c x) xs ->
  str_split [c] (join [c] xs) = xs.
Proof.
  unfold str_split, split. intros N F. revert N.
  induction F as [|x xs Hx Hxs IH]; [intros N; exfalso; apply N; reflexivity|].
  intros _.
  destruct xs as [|y xs].
  - simpl join. apply (split_go_last c x [] Hx).
  - change (join [c] (x :: y :: xs)) with (x ++ c :: join [c] (y :: xs)).
    rewrite split_go_field by assumption.
    rewrite IH by discriminate. reflexivity.
Qed.

(** ** C6: the statistics blocks *)

Lemma plain_chars (x : str) :
  forallb plain x = true ->
  ~ In ","%char x /\ ~ In ":"%char x /\ ~ In lf x.
Proof.
  induction x as [|a x IH]; simpl; [tauto|].
  intros H. apply andb_true_iff in H as [Ha Hx].
  destruct (IH Hx) as (I1 & I2 & I3).
  unfold plain, is_char in Ha. apply negb_true_iff in Ha.
  apply orb_false_iff in Ha as [Ha Ha3].
  apply orb_false_iff in Ha as [Ha1 Ha2].
  apply Ascii.eqb_neq in Ha1, Ha2, Ha3.
  repeat split; intros [E|E]; auto.
Qed.

Lemma stats_item_chars (kv : str * str) :
  plain_pair kv ->
  ~ In ","%char (stats_item kv) /\ ~ In lf (stats_item kv).
Proof.
  intros [Hk Hv].
  destruct (plain_chars _ Hk) as (K1 & _ & K3).
  destruct (plain_chars _ Hv) as (V1 & _ & V3).
  unfold stats_item. split; intros H;
    apply in_app_or in H as [H|H]; auto;
    simpl in H; destruct H as [H|H]; auto; discriminate.
Qed.

Lemma parts_of_item (kv : str * str) :
  plain_pair kv -> parts_of (stats_item kv) = Ok kv.
Proof.
  intros [Hk Hv].
  destruct (plain_chars _ Hk) as (_ & K & _).
  destruct (plain_chars _ Hv) as (_ & V & _).
  unfold parts_of, stats_item, str_split, split.
  change (lit ":" ++ snd kv) with (":"%char :: snd kv).
  change (lit ":") with [":"%char].
  rewrite split_go_field by assumption.
  rewrite split_go_last by assumption.
  destruct kv; reflexivity.
Qed.

(** What [parse_data] stores for a statistics line of the device. *)
Lemma stats_of_device (raw : list str) (n : nat) (kvs : list (str * str)) :
  index raw n = Ok (stats_line kvs) ->
  device_stats kvs ->
  stats_of raw n = Ok (join [lf] (map stats_item kvs))
  /\ str_split [lf] (join [lf] (map stats_item kvs)) = map stats_item kvs.
Proof.
  intros I (N & P & U1 & U2). unfold stats_of. rewrite I. cbn [bind].
  rewrite (strip_unpadded _ U1 U2).
  split.
  - f_equal. apply replace_join.
    apply Forall_map. eapply Forall_impl; [|exact P].
    intros kv H. apply (stats_item_chars kv H).
  - apply split_join.
    + destruct kvs; [congruence | discriminate].
    + apply Forall_map. eapply Forall_impl; [|exact P].
      intros kv H. apply (stats_item_chars kv H).
Qed.

Lemma comprehension_parts_of (kvs : list (str * str)) :
  Forall plain_pair kvs ->
  comprehension parts_of (map stats_item kvs) = Ok kvs.
Proof.
  induction 1 as [|kv kvs H _ IH]; [reflexivity|].
  simpl. rewrite (parts_of_item kv H). cbn [bind]. rewrite IH. reflexivity.
Qed.

Lemma for_each_items (f : str * str -> str) (kvs : list (str * str)) :
  Forall plain_pair kvs ->
  for_each (fun val => kv <~ lift (parts_of val) ;; print (f kv))
           (map stats_item kvs)
  = (map f kvs, Ok tt).
Proof.
  induction 1 as [|kv kvs H _ IH]; [reflexivity|].
  simpl map. cbn [for_each]. rewrite (parts_of_item kv H), IH. reflexivity.
Qed.

(** C6.  When lines 8 and 9 are statistics lines of the device, with the
    items [vs] and [ss], the blocks stored by [parse_data] split back, in
    [print_info], into exactly these key and value pairs in the order of
    the line, and [print_info] prints one line for each pair in that
    order. *)
Theorem statistics_in_order (raw : list str) (d : plotdict)
        (vs ss : list (str * str)) :
  parse_data raw = Ok d ->
  index raw 8 = Ok (stats_line vs) -> device_stats vs ->
  index raw 9 = Ok (stats_line ss) -> device_stats ss ->
  comprehension parts_of (str_split [lf] (VoltageStats d)) = Ok vs
  /\ comprehension parts_of (str_split [lf] (SignalStats d)) = Ok ss
  /\ print_info d
     = ([delimiter; settings_line d]
          ++ map (voltage_line (VscaleUnits d)) vs
          ++ map signal_line ss
          ++ [delimiter],
        Ok tt).
Proof.
  intros P I8 D8 I9 D9.
  apply parse_data_Ok in P as [F _].
  apply fill_plotdict_Ok in F as (v & _ & _ & _ & _ & _ & _ & S8 & S9 & _).
  destruct (stats_of_device raw 8 vs I8 D8) as [E8 T8].
  destruct (stats_of_device raw 9 ss I9 D9) as [E9 T9].
  rewrite E8 in S8. injection S8 as S8.
  rewrite E9 in S9. injection S9 as S9.
  destruct D8 as (_ & P8 & _). destruct D9 as (_ & P9 & _).
  split; [|split].
  - rewrite <- S8, T8. apply comprehension_parts_of; assumption.
  - rewrite <- S9, T9. apply comprehension_parts_of; assumption.
  - unfold print_info. rewrite <- S8, <- S9, T8, T9.
    rewrite (for_each_items (voltage_line (VscaleUnits d)) vs P8).
    rewrite (for_each_items signal_line ss P9).
    reflexivity.
Qed.

Lemma statistics_in_order_witness :
  comprehension parts_of (str_split [lf] (VoltageStats dict_mS))
  = Ok [(lit "Vmax", lit "1.2V"); (lit "Vmin", lit "-1.2V")]
  /\ comprehension parts_of (str_split [lf] (SignalStats dict_mS))
     = Ok [(lit "Freq", lit "1000Hz"); (lit "Duty", lit "50%")].
Proof.
  destruct (statistics_in_order frame_mS dict_mS
              [(lit "Vmax", lit "1.2V"); (lit "Vmin", lit "-1.2V")]
              [(lit "Freq", lit "1000Hz"); (lit "Duty", lit "50%")])
    as (H1 & H2 & _).
  - vm_compute; reflexivity.
  - reflexivity.
  - repeat split; try discriminate; repeat constructor.
  - reflexivity.
  - repeat split; try discriminate; repeat constructor.
  - split; assumption.
Defined.

(** ** C9: a statistics line without colon *)

Lemma nth_error_with_line (n i : nat) (s : str) (raw : list str) :
  i <> n -> nth_error (with_line n s raw) i = nth_error raw i.
Proof.
  revert n i; induction raw as [|x raw IH]; intros n i N; [reflexivity|].
  destruct n as [|n], i as [|i]; simpl; try reflexivity; try congruence.
  apply IH. congruence.
Qed.

Lemma nth_error_with_line_same (n : nat) (s : str) (raw : list str) :
  n < length raw -> nth_error (with_line n s raw) n = Some s.
Proof.
  revert n; induction raw as [|x raw IH]; intros n L; simpl in L; [lia|].
  destruct n as [|n]; simpl; [reflexivity|]. apply IH. lia.
Qed.

Lemma length_with_line (n : nat) (s : str) (raw : list str) :
  length (with_line n s raw) = length raw.
Proof.
  revert n; induction raw as [|x raw IH]; intros n; [reflexivity|].
  destruct n; simpl; auto.
Qed.

Lemma index_with_line (n i : nat) (s : str) (raw : list str) :
  i <> n -> index (with_line n s raw) i = index raw i.
Proof. intros N. unfold index. rewrite nth_error_with_line; auto. Qed.

(** The sample lines start after the replaced line. *)
Lemma skipn_firstn_with_line (n a k : nat) (s : str) (raw : list str) :
  n < a ->
  skipn a (firstn k (with_line n s raw)) = skipn a (firstn k raw).
Proof.
  revert n a k; induction raw as [|x raw IH]; intros n a k L; [reflexivity|].
  destruct a as [|a]; [lia|].
  destruct k as [|k]; [destruct n; reflexivity|].
  destruct n as [|n]; simpl; [reflexivity|].
  apply IH. lia.
Qed.

Lemma slice_between_with_line (n : nat) (s : str) (raw : list str) :
  n < 12 ->
  slice_between (with_line n s raw) 12 2 = slice_between raw 12 2.
Proof.
  intros L. unfold slice_between. rewrite length_with_line.
  apply skipn_firstn_with_line; assumption.
Qed.

(** Replacing a statistics line leaves every other entry of the dictionary
    as it was; the replaced one is taken as it comes. *)
Lemma fill_plotdict_with_line (n : nat) (s : str) (raw : list str)
      (d : plotdict) :
  n = 8 \/ n = 9 ->
  fill_plotdict raw = Ok d ->
  fill_plotdict (with_line n s raw)
  = Ok {| TscaleUnits := TscaleUnits d;
          Tscale := Tscale d;
          coupling := coupling d;
          Vscale := Vscale d;
          VscaleUnits := VscaleUnits d;
          VoltageStats :=
            if n =? 8 then str_replace (lit ", ") [lf] (strip s)
            else VoltageStats d;
          SignalStats :=
            if n =? 9 then str_replace (lit ", ") [lf] (strip s)
            else SignalStats d;
          ch1 := ch1 d |}.
Proof.
  intros N F.
  apply fill_plotdict_Ok in F
    as (v & U & V & T & C & VS & VU & S8 & S9 & CH).
  assert (L : n < length raw).
  { unfold stats_of, index in S8, S9.
    destruct (nth_error raw 8) eqn:E8; [|discriminate].
    destruct (nth_error raw 9) eqn:E9; [|discriminate].
    assert (8 < length raw) by (apply nth_error_Some; congruence).
    assert (9 < length raw) by (apply nth_error_Some; congruence).
    lia. }
  unfold fill_plotdict.
  unfold TscaleUnits_of, Tscale_of, coupling_of, Vscale_of, stats_of, ch1_of
    in *.
  rewrite slice_between_with_line by lia.
  rewrite !(index_with_line n 2), !(index_with_line n 3),
    !(index_with_line n 4) by lia.
  rewrite U, V, C, VS. cbn [bind]. rewrite VU. cbn [bind].
  destruct N as [-> | ->].
  - rewrite (index_with_line 8 9) by lia.
    unfold index at 1. rewrite nth_error_with_line_same by assumption.
    cbn [bind]. rewrite S9, CH. cbn [bind]. rewrite T. reflexivity.
  - rewrite (index_with_line 9 8) by lia.
    unfold index at 2. rewrite nth_error_with_line_same by assumption.
    rewrite S8. cbn [bind]. rewrite CH. cbn [bind]. rewrite T. reflexivity.
Qed.

Lemma parts_of_no_colon (entry : str) :
  ~ In ":"%char entry -> parts_of entry = Raise IndexError.
Proof.
  intros N. unfold parts_of, str_split, split.
  change (lit ":") with [":"%char].
  rewrite split_go_last by assumption. reflexivity.
Qed.

Lemma parts_of_Raise (val : str) (e : exn) :
  parts_of val = Raise e -> e = IndexError.
Proof.
  unfold parts_of.
  destruct (index (str_split (lit ":") val) 0) as [k|e0] eqn:E0; cbn [bind].
  - destruct (index (str_split (lit ":") val) 1) as [w|e1] eqn:E1; cbn [bind].
    + discriminate.
    + intros H; injection H as <-. eapply index_Raise; eauto.
  - intros H; injection H as <-. eapply index_Raise; eauto.
Qed.

Lemma snd_io_bind A B (m : io A) (k : A -> io B) :
  snd (io_bind m k)
  = match snd m with
    | Ok a => snd (k a)
    | Raise e => Raise e
    end.
Proof.
  destruct m as [out [a|e]]; simpl; [|reflexivity].
  destruct (k a); reflexivity.
Qed.

(** A loop of [print_info] ends well or with [IndexError], and it does not
    end well when an item has no colon. *)
Lemma for_each_parts (f : str * str -> str) (l : list str) :
  (snd (for_each (fun val => kv <~ lift (parts_of val) ;; print (f kv)) l)
   = Ok tt /\ Forall (fun val => In ":"%char val) l)
  \/ snd (for_each (fun val => kv <~ lift (parts_of val) ;; print (f kv)) l)
     = Raise IndexError.
Proof.
  induction l as [|val l IH]; [left; split; [reflexivity | constructor]|].
  cbn [for_each]. rewrite snd_io_bind, snd_io_bind.
  destruct (parts_of val) as [kv|e] eqn:P; unfold lift, print; cbn [snd].
  - destruct IH as [[IH F]|IH]; [left | right; exact IH].
    split; [exact IH|]. constructor; [|exact F].
    destruct (in_dec ascii_dec ":"%char val) as [I|I]; [exact I|].
    rewrite (parts_of_no_colon val I) in P. discriminate.
  - right. f_equal. apply (parts_of_Raise val e P).
Qed.

(** C9, as stated, fails: statistics lines without a single colon are
    decoded into a record. *)
Lemma missing_colon_accepted :
  existsb (Ascii.eqb ":") (nth 8 frame_no_colon []) = false
  /\ existsb (Ascii.eqb ":") (nth 9 frame_no_colon []) = false
  /\ is_ok (parse_data frame_no_colon) = true.
Proof. repeat split; vm_compute; reflexivity. Qed.

(** C9, amended.  [parse_data] does not look for the colon: whatever the
    statistics lines [s8] and [s9] are, a transmission that decodes with
    other statistics lines decodes with these, and the record holds them
    stripped, with line feeds for the separators.  An item without colon
    is met by [print_info], which raises [IndexError]. *)
Theorem missing_colon_deferred (raw : list str) (d : plotdict) (s8 s9 : str) :
  parse_data raw = Ok d ->
  exists d',
    parse_data (with_line 8 s8 (with_line 9 s9 raw)) = Ok d'
    /\ VoltageStats d' = str_replace (lit ", ") [lf] (strip s8)
    /\ SignalStats d' = str_replace (lit ", ") [lf] (strip s9)
    /\ ((exists item,
           (In item (str_split [lf] (VoltageStats d'))
            \/ In item (str_split [lf] (SignalStats d')))
           /\ ~ In ":"%char item) ->
        snd (print_info d') = Raise IndexError).
Proof.
  intros P. apply parse_data_Ok in P as [F L].
  pose proof (fill_plotdict_with_line 9 s9 raw d (or_intror eq_refl) F) as F9.
  pose proof (fill_plotdict_with_line 8 s8 _ _ (or_introl eq_refl) F9) as F8.
  simpl in F8.
  eexists. split; [|split; [|split]].
  - apply parse_data_Ok. split; [exact F8 | exact L].
  - reflexivity.
  - reflexivity.
  - cbn [VoltageStats SignalStats VscaleUnits].
    intros (item & I & N).
    unfold print_info. rewrite !snd_io_bind. cbn [print snd].
    cbn [VoltageStats SignalStats VscaleUnits].
    match goal with |- context [for_each ?b1 ?l1] =>
      destruct (for_each_parts (voltage_line (VscaleUnits d)) l1)
        as [[E1 A1]|E1] end;
      rewrite E1; [|reflexivity].
    match goal with |- context [for_each ?b2 ?l2] =>
      destruct (for_each_parts signal_line l2) as [[E2 A2]|E2] end;
      rewrite E2; [|reflexivity].
    exfalso. apply N.
    rewrite Forall_forall in A1, A2.
    destruct I as [I|I]; [apply (A1 item I) | apply (A2 item I)].
Qed.

Lemma missing_colon_deferred_witness :
  is_ok (parse_data
           (with_line 8 (lit "Vmax 1.0V") (with_line 9 (lit "Freq") frame_uS)))
  = true.
Proof.
  destruct (missing_colon_deferred frame_uS dict_uS (lit "Vmax 1.0V") (lit "Freq"))
    as (d' & P & _).
  - vm_compute; reflexivity.
  - rewrite P. reflexivity.
Defined.

(** * Further properties of the decoder *)

(** ** The number of lines of a decoded transmission *)

Lemma length_slice_between A (l : list A) (a b : nat) :
  length (slice_between l a b) = length l - b - a.
Proof.
  unfold slice_between. rewrite length_skipn, length_firstn. lia.
Qed.

(** X1.  A transmission that [parse_data] decodes has exactly 2062 lines:
    the twelve lines of the header, 2048 sample lines and the two closing
    lines. *)
Theorem decoded_transmission_length (raw : list str) (d : plotdict) :
  parse_data raw = Ok d -> length raw = 2062.
Proof.
  intros P. apply parse_data_Ok in P as [F L].
  apply fill_plotdict_Ok in F as (v & _ & _ & _ & _ & _ & _ & _ & _ & C).
  unfold ch1_of in C. apply comprehension_length in C.
  rewrite length_slice_between in C. lia.
Qed.

Lemma decoded_transmission_length_witness : length frame_mS = 2062.
Proof.
  apply (decoded_transmission_length frame_mS dict_mS).
  vm_compute; reflexivity.
Defined.

(** ** The lines that are never read *)

(** X2.  Lines 0, 1, 5, 6, 7, 10 and 11 of the transmission play no part:
    whatever stands there, [parse_data] gives the same result. *)
Theorem unread_header_lines (n : nat) (s : str) (raw : list str) :
  In n [0; 1; 5; 6; 7; 10; 11] ->
  parse_data (with_line n s raw) = parse_data raw.
Proof.
  intros N.
  assert (H : n <> 2 /\ n <> 3 /\ n <> 4 /\ n <> 8 /\ n <> 9 /\ n < 12).
  { simpl in N. repeat (destruct N as [<-|N]; [repeat split; lia|]).
    destruct N. }
  destruct H as (N2 & N3 & N4 & N8 & N9 & L).
  unfold parse_data, fill_plotdict, TscaleUnits_of, Tscale_of, coupling_of,
    Vscale_of, stats_of, ch1_of.
  rewrite slice_between_with_line by assumption.
  rewrite !(index_with_line n 2), !(index_with_line n 3),
    !(index_with_line n 4), !(index_with_line n 8),
    !(index_with_line n 9) by auto.
  reflexivity.
Qed.

Lemma unread_header_lines_witness :
  parse_data (with_line 7 (lit "anything") frame_mS) = Ok dict_mS.
Proof.
  rewrite (unread_header_lines 7 (lit "anything") frame_mS).
  - vm_compute; reflexivity.
  - simpl; auto 10.
Defined.

Lemma index_app_body A (body tail : list A) (i : nat) :
  i < length body -> index (body ++ tail) i = index body i.
Proof. intros L. unfold index. rewrite nth_error_app1; auto. Qed.

Lemma slice_between_closing A (body : list A) (a b : A) :
  slice_between (body ++ [a; b]) 12 2 = skipn 12 body.
Proof.
  unfold slice_between. rewrite length_app. simpl length.
  replace (length body + 2 - 2) with (length body + 0) by lia.
  rewrite firstn_app_2. simpl. rewrite app_nil_r. reflexivity.
Qed.

(** X3.  The two closing lines are dropped unread: with at least ten lines
    before them, so that they are not the statistics lines themselves, the
    result of [parse_data] does not depend on them.  Sample lines standing
    there are lost without notice. *)
Theorem unread_closing_lines (body : list str) (a b a' b' : str) :
  10 <= length body ->
  parse_data (body ++ [a; b]) = parse_data (body ++ [a'; b']).
Proof.
  intros L.
  unfold parse_data, fill_plotdict, TscaleUnits_of, Tscale_of, coupling_of,
    Vscale_of, stats_of, ch1_of.
  rewrite !slice_between_closing.
  rewrite !(index_app_body _ body [a; b]), !(index_app_body _ body [a'; b'])
    by lia.
  reflexivity.
Qed.

Lemma unread_closing_lines_witness :
  parse_data (removelast (removelast frame_mS)
                ++ [lit "2048" ++ [tab] ++ lit "9.9"; lit "not a sample"])
  = Ok dict_mS.
Proof.
  rewrite (unread_closing_lines (removelast (removelast frame_mS))
             _ _ [] []).
  - vm_compute; reflexivity.
  - vm_compute. repeat constructor.
Defined.

(** ** The exceptions of [parse_data] *)

Lemma coupling_of_Raise (raw : list str) (e : exn) :
  coupling_of raw = Raise e -> e = IndexError.
Proof.
  unfold coupling_of.
  destruct (index raw 4) as [line|e1] eqn:E1; cbn [bind].
  - destruct (index (split_ws line) 2) as [tok|e2] eqn:E2; cbn [bind].
    + discriminate.
    + intros H; injection H as <-. eapply index_Raise; eauto.
  - intros H; injection H as <-. eapply index_Raise; eauto.
Qed.

Lemma Vscale_of_Raise (raw : list str) (e : exn) :
  Vscale_of raw = Raise e -> e = IndexError.
Proof.
  unfold Vscale_of.
  destruct (index raw 4) as [line|e1] eqn:E1; cbn [bind].
  - apply index_Raise.
  - intros H; injection H as <-. eapply index_Raise; eauto.
Qed.

Lemma VscaleUnits_of_Raise (label : str) (e : exn) :
  VscaleUnits_of label = Raise e -> e = IndexError.
Proof.
  unfold VscaleUnits_of.
  destruct (index_neg label 6) as [c|e1] eqn:E1; cbn [bind].
  - discriminate.
  - intros H; injection H as <-. eapply index_neg_Raise; eauto.
Qed.

Lemma stats_of_Raise (raw : list str) (n : nat) (e : exn) :
  stats_of raw n = Raise e -> e = IndexError.
Proof.
  unfold stats_of.
  destruct (index raw n) as [line|e1] eqn:E1; cbn [bind].
  - discriminate.
  - intros H; injection H as <-. eapply index_Raise; eauto.
Qed.

Lemma sample_of_Raise (i : str) (e : exn) :
  sample_of i = Raise e -> e = IndexError \/ e = ValueError.
Proof.
  unfold sample_of.
  destruct (index (str_split [tab] i) 1) as [field|e1] eqn:E1; cbn [bind].
  - intros H. right. eapply py_float_Raise; eauto.
  - intros H; injection H as <-. left. eapply index_Raise; eauto.
Qed.

Lemma ch1_of_Raise (raw : list str) (e : exn) :
  ch1_of raw = Raise e -> e = IndexError \/ e = ValueError.
Proof.
  unfold ch1_of. intros H.
  apply comprehension_Raise in H as (i & _ & H).
  apply (sample_of_Raise i e H).
Qed.

Lemma fill_plotdict_Raise (raw : list str) (e : exn) :
  fill_plotdict raw = Raise e -> e = IndexError \/ e = ValueError.
Proof.
  unfold fill_plotdict.
  destruct (TscaleUnits_of raw) eqn:E1; cbn [bind];
    [|intros H; injection H as <-; left; eapply TscaleUnits_of_Raise; eauto].
  destruct (Tscale_of raw) eqn:E2; cbn [bind];
    [|intros H; injection H as <-; eapply Tscale_of_Raise; eauto].
  destruct (coupling_of raw) eqn:E3; cbn [bind];
    [|intros H; injection H as <-; left; eapply coupling_of_Raise; eauto].
  destruct (Vscale_of raw) eqn:E4; cbn [bind];
    [|intros H; injection H as <-; left; eapply Vscale_of_Raise; eauto].
  destruct (VscaleUnits_of a2) eqn:E5; cbn [bind];
    [|intros H; injection H as <-; left; eapply VscaleUnits_of_Raise; eauto].
  destruct (stats_of raw 8) eqn:E6; cbn [bind];
    [|intros H; injection H as <-; left; eapply stats_of_Raise; eauto].
  destruct (stats_of raw 9) eqn:E7; cbn [bind];
    [|intros H; injection H as <-; left; eapply stats_of_Raise; eauto].
  destruct (ch1_of raw) eqn:E8; cbn [bind];
    [|intros H; injection H as <-; eapply ch1_of_Raise; eauto].
  discriminate.
Qed.

(** X4.  [parse_data] ends in one of four ways: a record with 2048 samples;
    [IndexError], for a line, a token or a character that is not there;
    [ValueError], for a number that [float] does not read; or
    [AssertionError], and then all the fields and samples were decoded and
    only their number was wrong.  It raises nothing else. *)
Theorem parse_data_exceptions (raw : list str) :
  match parse_data raw with
  | Ok d => fill_plotdict raw = Ok d /\ length (ch1 d) = 2048
  | Raise IndexError | Raise ValueError =>
      fill_plotdict raw = parse_data raw
  | Raise AssertionError =>
      exists d, fill_plotdict raw = Ok d /\ length (ch1 d) <> 2048
  | Raise UnicodeDecodeError => False
  end.
Proof.
  destruct (parse_data raw) as [d|e] eqn:P.
  - apply parse_data_Ok; assumption.
  - unfold parse_data in P.
    destruct (fill_plotdict raw) as [d|e'] eqn:F; cbn [bind] in P.
    + unfold assert in P.
      destruct (Nat.eqb_spec (length (ch1 d)) 2048) as [L|L];
        cbn [bind] in P; [discriminate|].
      injection P as <-. exists d; auto.
    + injection P as <-.
      destruct (fill_plotdict_Raise raw e' F) as [-> | ->]; reflexivity.
Qed.

(** X5.  A transmission of fewer than ten lines never reaches the count of
    the samples: it is refused with [IndexError], or with [ValueError] when
    line 3 is there and does not end in a number.  With fewer than three
    lines, the empty transmission among them, it is [IndexError]. *)
Theorem short_transmission (raw : list str) :
  length raw < 10 ->
  (parse_data raw = Raise IndexError \/ parse_data raw = Raise ValueError)
  /\ (length raw < 3 -> parse_data raw = Raise IndexError).
Proof.
  intros L.
  assert (S9 : stats_of raw 9 = Raise IndexError).
  { unfold stats_of, index.
    destruct (nth_error raw 9) eqn:E; [|reflexivity].
    assert (9 < length raw) by (apply nth_error_Some; congruence). lia. }
  split.
  - destruct (fill_plotdict raw) as [d|e] eqn:F.
    + apply fill_plotdict_Ok in F as (v & _ & _ & _ & _ & _ & _ & _ & S & _).
      congruence.
    + unfold parse_data. rewrite F. cbn [bind].
      destruct (fill_plotdict_Raise raw e F) as [-> | ->]; auto.
  - intros L3. unfold parse_data, fill_plotdict, TscaleUnits_of, index.
    destruct (nth_error raw 2) eqn:E; [|reflexivity].
    assert (2 < length raw) by (apply nth_error_Some; congruence). lia.
Qed.

Lemma short_transmission_witness :
  parse_data [] = Raise IndexError
  /\ parse_data [lit "DLO-138"; lit "no"; lit "Timebase: 1 mS/div"; lit "x"]
     = Raise ValueError.
Proof.
  split.
  - apply (short_transmission []); simpl; lia.
  - destruct (short_transmission
                [lit "DLO-138"; lit "no"; lit "Timebase: 1 mS/div"; lit "x"])
      as [[H|H] _].
    + simpl; lia.
    + vm_compute in H. discriminate.
    + exact H.
Defined.

(** ** The shape of the decoded fields *)

(** The tokens of [s.split()] are not empty and hold no blank. *)
Lemma split_ws_go_tokens (s cur : str) :
  forallb (fun c => negb (is_space c)) cur = true ->
  Forall (fun t => t <> [] /\ forallb (fun c => negb (is_space c)) t = true)
         (split_ws_go s cur).
Proof.
  assert (E : forall cur rest,
             forallb (fun c => negb (is_space c)) cur = true ->
             Forall (fun t => t <> []
                              /\ forallb (fun c => negb (is_space c)) t = true)
                    rest ->
             Forall (fun t => t <> []
                              /\ forallb (fun c => negb (is_space c)) t = true)
                    (emit cur rest)).
  { intros [|c cu] rest Hc Hr; simpl; auto.
    constructor; auto. split.
    - intros H. apply (f_equal (@length ascii)) in H.
      rewrite length_app in H. simpl in H. lia.
    - change (rev cu ++ [c]) with (rev (c :: cu)).
      rewrite forallb_forall in *. intros x Hx. apply Hc.
      apply in_rev. exact Hx. }
  revert cur; induction s as [|c s IH]; intros cur Hc; simpl.
  - apply E; auto.
  - destruct (is_space c) eqn:Sc.
    + apply E; auto.
    + apply IH. simpl. rewrite Sc. exact Hc.
Qed.

Lemma split_ws_token (s tok : str) (i : nat) :
  index (split_ws s) i = Ok tok ->
  tok <> [] /\ forall c, In c tok -> is_space c = false.
Proof.
  unfold index. intros H.
  destruct (nth_error (split_ws s) i) as [t|] eqn:N; [|discriminate].
  injection H as ->. apply nth_error_In in N.
  pose proof (split_ws_go_tokens s [] eq_refl) as F.
  rewrite Forall_forall in F. destruct (F tok N) as [Ne Hb].
  split; auto. intros c Hc.
  rewrite forallb_forall in Hb. apply negb_true_iff. auto.
Qed.

(** [tok.replace(c, '')] removes every [c] and nothing else. *)
Lemma replace_char_filter (c : ascii) (s : str) :
  str_replace [c] [] s = filter (fun a => negb (Ascii.eqb c a)) s.
Proof.
  unfold str_replace, replace.
  induction s as [|a s IH]; [reflexivity|].
  cbn [replace_go starts_with filter length Nat.sub].
  destruct (Ascii.eqb c a); simpl; rewrite IH; reflexivity.
Qed.

(** X6.  In a record that [parse_data] returns, the unit of the time scale
    has one or two characters and no blank; the coupling has no comma and no
    blank, and is the token of line 4 with its commas removed; the
    voltage-scale label has no blank. *)
Theorem decoded_fields_shape (raw : list str) (d : plotdict) :
  parse_data raw = Ok d ->
  (1 <= length (TscaleUnits d) <= 2
   /\ forall c, In c (TscaleUnits d) -> is_space c = false)
  /\ (forall c, In c (coupling d) -> c <> ","%char /\ is_space c = false)
  /\ (exists line tok,
        index raw 4 = Ok line /\ index (split_ws line) 2 = Ok tok
        /\ coupling d = filter (fun a => negb (Ascii.eqb "," a)) tok)
  /\ (forall c, In c (Vscale d) -> is_space c = false).
Proof.
  intros P. apply parse_data_Ok in P as [F _].
  apply fill_plotdict_Ok in F as (v & U & _ & _ & C & V & _).
  unfold TscaleUnits_of in U. unbind U.
  assert (U' : firstn 2 a0 = TscaleUnits d)
    by (unfold slice_to in U; congruence).
  clear U.
  unfold coupling_of in C. unbind C. injection C as C.
  unfold Vscale_of in V. unbind V.
  destruct (split_ws_token _ _ _ E0) as [N0 B0].
  destruct (split_ws_token _ _ _ E2) as [N2 B2].
  destruct (split_ws_token _ _ _ V) as [N4 B4].
  change (lit ",") with [","%char] in C. rewrite replace_char_filter in C.
  split; [|split; [|split]].
  - rewrite <- U'. split.
    + rewrite length_firstn. destruct a0; [congruence|]. cbn [length]. lia.
    + intros c Hc. apply B0.
      rewrite <- (firstn_skipn 2 a0). apply in_or_app. left. exact Hc.
  - intros c Hc. rewrite <- C in Hc. apply filter_In in Hc as [Hc Hn].
    split; [|apply B2; exact Hc].
    apply negb_true_iff, Ascii.eqb_neq in Hn. congruence.
  - exists a1, a2. auto.
  - exact B4.
Qed.

Lemma decoded_fields_shape_witness :
  length (TscaleUnits dict_mS) <= 2
  /\ forall c, In c (coupling dict_mS) -> c <> ","%char /\ is_space c = false.
Proof.
  destruct (decoded_fields_shape frame_mS dict_mS) as ((L & _) & C & _).
  - vm_compute; reflexivity.
  - split; [apply L | exact C].
Defined.

(** ** The sample lines *)

Lemma sample_of_second_column (idx field : str) :
  ~ In tab idx -> ~ In tab field ->
  sample_of (idx ++ tab :: field) = py_float field.
Proof.
  intros Hi Hf. unfold sample_of, str_split, split.
  rewrite (split_go_field tab idx field [] Hi).
  rewrite (split_go_last tab field [] Hf). reflexivity.
Qed.

(** X7.  Of a sample line only the second tab-separated column counts: the
    index in the first column is not looked at, further columns are
    ignored, and a line without a tab raises [IndexError]. *)
Theorem sample_columns (idx field more : str) :
  ~ In tab idx -> ~ In tab field ->
  sample_of (idx ++ tab :: field) = py_float field
  /\ sample_of (idx ++ tab :: field ++ tab :: more) = py_float field
  /\ sample_of idx = Raise IndexError.
Proof.
  intros Hi Hf. unfold sample_of, str_split, split.
  rewrite (split_go_field tab idx field [] Hi).
  rewrite (split_go_field tab idx (field ++ tab :: more) [] Hi).
  rewrite (split_go_field tab field more [] Hf).
  rewrite (split_go_last tab field [] Hf), (split_go_last tab idx [] Hi).
  repeat split; reflexivity.
Qed.

Lemma sample_columns_witness :
  sample_of (lit "7" ++ tab :: lit "1.5") = Ok 1.5%float
  /\ sample_of (lit "seven") = Raise IndexError.
Proof.
  destruct (sample_columns (lit "7") (lit "1.5") []) as (H1 & _ & _).
  - simpl. intros [H|[]]. discriminate.
  - simpl. intros [H|[H|[H|[]]]]; discriminate.
  - destruct (sample_columns (lit "seven") [] []) as (_ & _ & H3).
    + simpl. intros [H|[H|[H|[H|[H|[]]]]]]; discriminate.
    + simpl. tauto.
    + split; [rewrite H1; reflexivity | exact H3].
Defined.

Lemma slice_between_frame A (head lines tail : list A) :
  length head = 12 -> length tail = 2 ->
  slice_between (head ++ lines ++ tail) 12 2 = lines.
Proof.
  intros Hh Ht. unfold slice_between.
  rewrite app_assoc, length_app, Ht.
  replace (length (head ++ lines) + 2 - 2) with (length (head ++ lines) + 0)
    by lia.
  rewrite firstn_app_2. cbn [firstn]. rewrite app_nil_r.
  rewrite <- Hh. rewrite skipn_app, skipn_all, Nat.sub_diag. reflexivity.
Qed.

Lemma comprehension_map A B C (g : A -> B) (f : B -> result C) (l : list A) :
  comprehension f (map g l) = comprehension (fun x => f (g x)) l.
Proof.
  induction l as [|x l IH]; simpl; [reflexivity|]. rewrite IH. reflexivity.
Qed.

Lemma comprehension_ext A B (f g : A -> result B) (l : list A) :
  Forall (fun x => f x = g x) l -> comprehension f l = comprehension g l.
Proof.
  induction 1 as [|x l H _ IH]; simpl; [reflexivity|].
  rewrite H, IH. reflexivity.
Qed.

(** X8.  The samples are the second columns of lines 12 to the last but
    two, read with [float] in the order of the lines, whatever their first
    columns say: a transmission whose indices are wrong, repeated or out of
    order decodes like the well-numbered one. *)
Theorem samples_in_line_order (head tail : list str)
        (columns : list (str * str)) :
  length head = 12 -> length tail = 2 ->
  Forall (fun iv => ~ In tab (fst iv) /\ ~ In tab (snd iv)) columns ->
  ch1_of (head ++ map (fun iv => fst iv ++ tab :: snd iv) columns ++ tail)
  = comprehension py_float (map snd columns).
Proof.
  intros Hh Ht F. unfold ch1_of.
  rewrite slice_between_frame by assumption.
  rewrite !comprehension_map. apply comprehension_ext.
  eapply Forall_impl; [|exact F].
  intros [i v] [Hi Hv]. simpl in *.
  apply (sample_of_second_column i v Hi Hv).
Qed.

Lemma samples_in_line_order_witness :
  ch1_of (firstn 12 frame_mS
            ++ map (fun iv => fst iv ++ tab :: snd iv)
                 [(lit "9", lit "0.5"); (lit "9", lit "-2")]
            ++ [[]; []])
  = Ok [0.5%float; (-2)%float].
Proof.
  rewrite (samples_in_line_order (firstn 12 frame_mS) [[]; []]
             [(lit "9", lit "0.5"); (lit "9", lit "-2")]).
  - vm_compute; reflexivity.
  - reflexivity.
  - reflexivity.
  - repeat constructor; simpl; intros H;
      repeat (destruct H as [H|H]; [discriminate|]); destruct H.
Defined.

(** ** Statistics lines with blanks around them *)

Lemma drop_while_blank (pad s : str) :
  blank pad = true -> drop_while is_space (pad ++ s) = drop_while is_space s.
Proof.
  unfold blank. induction pad as [|c pad IH]; simpl; [reflexivity|].
  intros H. apply andb_true_iff in H as [Hc Hp]. rewrite Hc. auto.
Qed.

Lemma blank_rev (pad : str) : blank pad = true -> blank (rev pad) = true.
Proof.
  unfold blank. rewrite !forallb_forall. intros H c Hc.
  apply H. apply in_rev. exact Hc.
Qed.

(** [strip] removes the blanks around a text that has none at its ends. *)
Lemma strip_padding (pad1 pad2 s : str) :
  blank pad1 = true -> blank pad2 = true ->
  s <> [] -> unpadded s = true -> unpadded (rev s) = true ->
  strip (pad1 ++ s ++ pad2) = s.
Proof.
  intros B1 B2 N U1 U2. unfold strip, strip_by.
  rewrite (drop_while_blank pad1 _ B1).
  assert (D : drop_while is_space (s ++ pad2) = s ++ pad2).
  { destruct s as [|c s]; [congruence|]. simpl in *.
    destruct (is_space c); [discriminate | reflexivity]. }
  rewrite D, rev_app_distr.
  rewrite (drop_while_blank (rev pad2) _ (blank_rev pad2 B2)).
  rewrite (drop_while_unpadded (rev s) U2). apply rev_involutive.
Qed.

(** X9.  Blanks before and after a statistics line make no difference: the
    block stored for the padded line is the one stored for the line
    itself, the items separated by line feeds. *)
Theorem stats_padding_ignored (raw : list str) (n : nat)
        (pad1 pad2 : str) (kvs : list (str * str)) :
  blank pad1 = true -> blank pad2 = true ->
  device_stats kvs ->
  index raw n = Ok (pad1 ++ stats_line kvs ++ pad2) ->
  stats_of raw n = Ok (join [lf] (map stats_item kvs))
  /\ stats_of (with_line n (stats_line kvs) raw) n = stats_of raw n.
Proof.
  intros B1 B2 D I.
  assert (L : n < length raw).
  { unfold index in I. destruct (nth_error raw n) eqn:E; [|discriminate].
    apply nth_error_Some. congruence. }
  assert (I' : index (with_line n (stats_line kvs) raw) n
               = Ok (stats_line kvs)).
  { unfold index. rewrite nth_error_with_line_same by assumption.
    reflexivity. }
  destruct (stats_of_device _ n kvs I' D) as [S' _].
  enough (S : stats_of raw n = Ok (join [lf] (map stats_item kvs))).
  { split; [exact S | rewrite S', S; reflexivity]. }
  destruct D as (N & P & U1 & U2).
  unfold stats_of. rewrite I. cbn [bind].
  rewrite strip_padding; auto.
  - f_equal. apply replace_join.
    apply Forall_map. eapply Forall_impl; [|exact P].
    intros kv H. apply (stats_item_chars kv H).
  - destruct kvs as [|kv kvs]; [congruence|].
    unfold stats_line. simpl map.
    destruct kvs; simpl; unfold stats_item;
      destruct (fst kv); discriminate.
Qed.

Lemma stats_padding_ignored_witness :
  stats_of [tab :: lit " Vmax:1.2V, Vmin:-1.2V  "] 0
  = Ok (lit "Vmax:1.2V" ++ lf :: lit "Vmin:-1.2V").
Proof.
  destruct (stats_padding_ignored
              [tab :: lit " Vmax:1.2V, Vmin:-1.2V  "] 0
              (tab :: lit " ") (lit "  ")
              [(lit "Vmax", lit "1.2V"); (lit "Vmin", lit "-1.2V")])
    as [H _].
  - reflexivity.
  - reflexivity.
  - repeat split; try discriminate; repeat constructor.
  - reflexivity.
  - exact H.
Defined.

(** * Further properties of the reader *)

(** ** Splitting and joining, for any separator *)

Section SplitJoin.
Variable A : Type.
Variable eqb : A -> A -> bool.
Hypothesis eqb_eq : forall a b, eqb a b = true <-> a = b.

Lemma starts_with_app (sep s : list A) :
  starts_with eqb sep s = true -> exists rest, s = sep ++ rest.
Proof.
  revert s; induction sep as [|c sep IH]; intros s H.
  - exists s; reflexivity.
  - destruct s as [|a s]; simpl in H; [discriminate|].
    apply andb_true_iff in H as [Hc Hs]. apply eqb_eq in Hc. subst a.
    destruct (IH s Hs) as (rest & ->). exists rest; reflexivity.
Qed.

Lemma starts_with_prefix (sep rest : list A) :
  starts_with eqb sep (sep ++ rest) = true.
Proof.
  induction sep as [|c sep IH]; simpl; [reflexivity|].
  rewrite IH. rewrite (proj2 (eqb_eq c c) eq_refl). reflexivity.
Qed.

Lemma starts_with_first (c a : A) (sep s : list A) :
  c <> a -> starts_with eqb (c :: sep) (a :: s) = false.
Proof.
  intros N. simpl. destruct (eqb c a) eqn:E; [|reflexivity].
  apply eqb_eq in E. contradiction.
Qed.

Lemma split_go_skip (sep pre rest cur : list A) :
  split_go eqb sep (pre ++ rest) (length pre) cur
  = split_go eqb sep rest 0 cur.
Proof.
  induction pre as [|a pre IH]; [reflexivity|]. simpl. exact IH.
Qed.

(** At a separator the current field ends. *)
Lemma split_go_separator (c : A) (sep rest cur : list A) :
  split_go eqb (c :: sep) ((c :: sep) ++ rest) 0 cur
  = rev cur :: split_go eqb (c :: sep) rest 0 [].
Proof.
  change ((c :: sep) ++ rest) with (c :: (sep ++ rest)).
  cbn [split_go].
  change (c :: (sep ++ rest)) with ((c :: sep) ++ rest).
  rewrite starts_with_prefix.
  replace (length (c :: sep) - 1) with (length sep) by (simpl; lia).
  rewrite split_go_skip. reflexivity.
Qed.

(** A stretch without the first element of the separator joins the
    current field. *)
Lemma split_go_stretch (c : A) (sep x rest cur : list A) :
  ~ In c x ->
  split_go eqb (c :: sep) (x ++ rest) 0 cur
  = split_go eqb (c :: sep) rest 0 (rev x ++ cur).
Proof.
  revert cur; induction x as [|a x IH]; intros cur N; [reflexivity|].
  simpl app. cbn [split_go].
  rewrite starts_with_first by (intros ->; apply N; left; reflexivity).
  rewrite IH by (intros H; apply N; right; exact H).
  simpl. rewrite <- app_assoc. reflexivity.
Qed.

Lemma split_go_not_nil (sep s : list A) (k : nat) (cur : list A) :
  split_go eqb sep s k cur <> [].
Proof.
  revert k cur; induction s as [|a s IH]; intros k cur; simpl.
  - discriminate.
  - destruct k; [|apply IH].
    destruct (starts_with eqb sep (a :: s)); [discriminate | apply IH].
Qed.

Lemma join_cons (sep x : list A) (l : list (list A)) :
  l <> [] -> join sep (x :: l) = x ++ sep ++ join sep l.
Proof. destruct l; [congruence | reflexivity]. Qed.

Lemma join_split_go (c : A) (sep : list A) (n : nat) :
  forall s cur, length s <= n ->
    join (c :: sep) (split_go eqb (c :: sep) s 0 cur) = rev cur ++ s.
Proof.
  induction n as [|n IH]; intros s cur L.
  - destruct s; [|simpl in L; lia]. simpl. rewrite app_nil_r. reflexivity.
  - destruct s as [|a s]; [simpl; rewrite app_nil_r; reflexivity|].
    destruct (starts_with eqb (c :: sep) (a :: s)) eqn:S.
    + destruct (starts_with_app _ _ S) as (rest & E). rewrite E.
      rewrite split_go_separator, join_cons by apply split_go_not_nil.
      rewrite IH; [reflexivity|].
      apply (f_equal (@length A)) in E. rewrite length_app in E.
      simpl in E, L. lia.
    + cbn [split_go]. rewrite S. rewrite IH by (simpl in L; lia).
      simpl. rewrite <- app_assoc. reflexivity.
Qed.

(** Joining the fields again gives the text back. *)
Lemma join_split (c : A) (sep s : list A) :
  join (c :: sep) (split eqb (c :: sep) s) = s.
Proof. unfold split. apply (join_split_go c sep (length s)). lia. Qed.

(** Splitting a joined list gives the fields back, when the first element
    of the separator occurs in none of them. *)
Lemma split_join_fields (c : A) (sep : list A) (xs : list (list A)) :
  xs <> [] -> Forall (fun x => ~ In c x) xs ->
  split eqb (c :: sep) (join (c :: sep) xs) = xs.
Proof.
  unfold split. intros N F. revert N.
  induction F as [|x xs Hx Hxs IH];
    [intros N; exfalso; apply N; reflexivity|].
  intros _. destruct xs as [|y xs].
  - simpl join. rewrite <- (app_nil_r x) at 1.
    rewrite split_go_stretch by assumption.
    simpl. rewrite app_nil_r, rev_involutive. reflexivity.
  - rewrite join_cons by discriminate.
    rewrite split_go_stretch by assumption.
    rewrite split_go_separator, IH by discriminate.
    rewrite app_nil_r, rev_involutive. reflexivity.
Qed.


End SplitJoin.

Lemma map_join A B (f : A -> B) (sep : list A) (l : list (list A)) :
  map f (join sep l) = join (map f sep) (map (map f) l).
Proof.
  induction l as [|x l IH]; [reflexivity|].
  destruct l as [|y l]; [reflexivity|].
  change (join sep (x :: y :: l)) with (x ++ sep ++ join sep (y :: l)).
  rewrite !map_app, IH. reflexivity.
Qed.

Lemma byte_eqb_eq (a b : byte) : Byte.eqb a b = true <-> a = b.
Proof. split; [apply Byte.byte_dec_bl | apply Byte.byte_dec_lb]. Qed.

(** ** When the reader comes back *)

Lemma wait_for_data_pending (line : list (list byte)) (p : Serial) :
  in_buffer p <> [] -> wait_for_data line p = Some (line, p).
Proof.
  intros N. destruct p as [[|b buf] o]; [simpl in N; congruence|].
  destruct line; reflexivity.
Qed.

Lemma wait_for_data_None (line : list (list byte)) (o : bool) :
  wait_for_data line {| in_buffer := []; is_open := o |} = None
  <-> Forall (fun chunk => chunk = []) line.
Proof.
  induction line as [|chunk line IH].
  - split; [constructor | reflexivity].
  - cbn [wait_for_data in_waiting in_buffer length Nat.eqb].
    unfold arrive. cbn [in_buffer is_open app].
    destruct chunk as [|b chunk].
    + rewrite IH. split.
      * intros F. constructor; [reflexivity | exact F].
      * intros F. inversion F; assumption.
    + rewrite wait_for_data_pending by discriminate.
      split; [discriminate | intros F; inversion F; discriminate].
Qed.

Lemma wait_for_data_Some (line line1 : list (list byte)) (o : bool)
      (p1 : Serial) :
  wait_for_data line {| in_buffer := []; is_open := o |} = Some (line1, p1) ->
  in_buffer p1 <> [] /\ is_open p1 = o.
Proof.
  revert p1; induction line as [|chunk line IH]; intros p1.
  - discriminate.
  - cbn [wait_for_data in_waiting in_buffer length Nat.eqb].
    unfold arrive. cbn [in_buffer is_open app].
    destruct chunk as [|b chunk].
    + apply IH.
    + rewrite wait_for_data_pending by discriminate.
      intros H; injection H as _ <-. split; [discriminate | reflexivity].
Qed.

(** Once a byte is in the port or in the buffer, the second loop ends, and
    with a buffer that is not empty. *)
Lemma receive_ends (line : list (list byte)) :
  forall (pending buf : list byte) (o : bool),
    pending <> [] \/ buf <> [] ->
    exists line2 buf2,
      receive line (at_head pending buf o) = Some (line2, at_head [] buf2 o)
      /\ buf2 <> [].
Proof.
  induction line as [|chunk line IH]; intros pending buf o H.
  - destruct pending as [|b pending].
    + destruct H as [H|H]; [congruence|].
      exists [], buf. split; [|exact H].
      apply receive_stop. apply poll_quiet. exact H.
    + exists [], (buf ++ b :: pending). split.
      * simpl. rewrite (poll_new_bytes (b :: pending) buf o) by discriminate.
        rewrite poll_quiet; [reflexivity|]. destruct buf; discriminate.
      * destruct buf; discriminate.
  - destruct pending as [|b pending].
    + destruct H as [H|H]; [congruence|].
      exists (chunk :: line), buf. split; [|exact H].
      apply receive_stop. apply poll_quiet. exact H.
    + rewrite (receive_continue chunk line _ _
                 (poll_new_bytes (b :: pending) buf o ltac:(discriminate))).
      rewrite sleep_at_head. apply IH. right. destruct buf; discriminate.
Qed.

(** The three ways in which [get_data] ends, with the buffer it had. *)
Lemma get_data_cases (line : list (list byte)) :
  (Forall (fun chunk => chunk = []) line
   /\ ending (get_data line) = Hangs)
  \/ (exists buf rest,
        buf <> [] /\ ~ Forall (fun chunk => chunk = []) line
        /\ get_data line = finish buf rest).
Proof.
  unfold get_data.
  destruct (wait_for_data line open_port) as [[line1 p1]|] eqn:W.
  - right. destruct (wait_for_data_Some _ _ _ _ W) as [N O].
    destruct p1 as [pending o]. simpl in N, O. subst o.
    change {| serial_port := {| in_buffer := pending; is_open := true |};
              buffer := []; prev_buffer_size := 0 |}
      with (at_head pending [] true).
    destruct (receive_ends line1 pending [] true (or_introl N))
      as (line2 & buf2 & R & N2).
    rewrite R. exists buf2, line2. split; [exact N2|]. split.
    + intros F. apply (wait_for_data_None line true) in F.
      unfold open_port in W. congruence.
    + unfold finish, at_head. simpl.
      destruct (comprehension str_ascii _); reflexivity.
  - left. split; [|reflexivity].
    apply (wait_for_data_None line true). exact W.
Qed.


(** ** What the reader returns *)

Lemma str_ascii_Ok (line : list byte) (s : str) :
  str_ascii line = Ok s ->
  map byte_of_ascii s = line /\ forallb is_ascii_byte line = true.
Proof.
  unfold str_ascii. revert s; induction line as [|b line IH]; intros s H.
  - injection H as <-. split; reflexivity.
  - simpl in H. unfold is_ascii_byte. simpl forallb.
    destruct (Byte.to_nat b <? 128); cbn [bind] in H; [|discriminate].
    unbind H. injection H as <-. destruct (IH a E) as [M F].
    simpl. rewrite byte_of_ascii_of_byte, M. split; [reflexivity | exact F].
Qed.

Lemma comprehension_str_ascii_Ok (pieces : list (list byte)) (raw : list str) :
  comprehension str_ascii pieces = Ok raw ->
  map (map byte_of_ascii) raw = pieces
  /\ Forall (fun piece => forallb is_ascii_byte piece = true) pieces.
Proof.
  revert raw; induction pieces as [|p pieces IH]; intros raw H.
  - injection H as <-. split; [reflexivity | constructor].
  - simpl in H. unbind H. injection H as <-.
    destruct (str_ascii_Ok p a E) as [M F].
    destruct (IH a0 E0) as [M' F'].
    simpl. rewrite M, M'. split; [reflexivity | constructor; assumption].
Qed.

(** X11.  What [get_data] returns is what it received: the lines, joined
    again with CR LF, are byte for byte the accumulated buffer.  There is at
    least one line, and the port is left closed and read empty. *)
Theorem returned_lines_are_the_buffer (line : list (list byte))
        (raw_data : list str) :
  ending (get_data line) = Returns raw_data ->
  on_the_wire raw_data = received (get_data line)
  /\ raw_data <> []
  /\ port_after (get_data line) = {| in_buffer := []; is_open := false |}.
Proof.
  destruct (get_data_cases line) as [[F H]|(buf & rest & N & NF & G)];
    [congruence|].
  rewrite G. unfold finish.
  destruct (comprehension str_ascii (split Byte.eqb crlf buf))
    as [raw|e] eqn:D; simpl; [|discriminate].
  intros H; injection H as <-.
  destruct (comprehension_str_ascii_Ok _ _ D) as [M _].
  split; [|split; [|reflexivity]].
  - unfold on_the_wire. rewrite map_join, M.
    apply (join_split _ _ byte_eqb_eq).
  - intros ->. simpl in M. symmetry in M.
    apply (split_go_not_nil _ Byte.eqb crlf buf 0 [] M).
Qed.

Lemma returned_lines_are_the_buffer_witness :
  on_the_wire [lit "AB"; lit "C"; []]
  = received (get_data [[]; ["A"; "B"; "013"]; ["010"; "C"; "013"; "010"]]%byte).
Proof.
  apply (returned_lines_are_the_buffer
           [[]; ["A"; "B"; "013"]; ["010"; "C"; "013"; "010"]]%byte
           [lit "AB"; lit "C"; []]).
  reflexivity.
Defined.


(** ** From the device to the lines *)

Lemma to_nat_byte_of_ascii (c : ascii) :
  Byte.to_nat (byte_of_ascii c) = nat_of_ascii c.
Proof.
  apply Byte.to_of_nat. symmetry. apply byte_of_ascii_via_nat.
Qed.

Lemma str_ascii_of_ascii (s : str) :
  forallb is_ascii_char s = true -> str_ascii (map byte_of_ascii s) = Ok s.
Proof.
  unfold str_ascii. induction s as [|c s IH]; [reflexivity|].
  simpl. intros H. apply andb_true_iff in H as [Hc Hs].
  rewrite to_nat_byte_of_ascii. unfold is_ascii_char in Hc. rewrite Hc.
  cbn [bind]. rewrite (IH Hs). cbn [bind].
  rewrite ascii_of_byte_of_ascii. reflexivity.
Qed.

Lemma not_in_map_byte (c : ascii) (s : str) :
  ~ In c s -> ~ In (byte_of_ascii c) (map byte_of_ascii s).
Proof.
  intros N H. apply in_map_iff in H as (a & E & Ha).
  apply (f_equal ascii_of_byte) in E.
  rewrite !ascii_of_byte_of_ascii in E. subst a. contradiction.
Qed.

(** X13.  Lines of 7-bit text without carriage return, sent with CR LF
    between them, come back from [get_data] as they were sent, however the
    line cuts the bytes into chunks, provided that no poll cycle falls
    between two chunks.  The port is closed on return. *)
Theorem lines_delivered (idle : nat) (chunks rest : list (list byte))
        (raw_data : list str) :
  raw_data <> [] ->
  Forall (fun l => forallb is_ascii_char l = true /\ ~ In cr l) raw_data ->
  chunks <> [] -> Forall (fun chunk => chunk <> []) chunks ->
  concat chunks = on_the_wire raw_data ->
  ending (get_data (repeat [] idle ++ chunks ++ [] :: rest))
  = Returns raw_data
  /\ is_open (port_after (get_data (repeat [] idle ++ chunks ++ [] :: rest)))
     = false
  /\ line_after (get_data (repeat [] idle ++ chunks ++ [] :: rest)) = rest.
Proof.
  intros N F NC FC E.
  destruct chunks as [|b bursts]; [congruence|].
  rewrite (get_data_bursts idle b bursts rest FC), E.
  assert (D : comprehension str_ascii
                (split Byte.eqb crlf (on_the_wire raw_data)) = Ok raw_data).
  { unfold on_the_wire. rewrite map_join.
    change (map byte_of_ascii [cr; lf]) with crlf.
    unfold crlf at 1 2.
    rewrite (split_join_fields _ _ byte_eqb_eq).
    - clear N E. induction F as [|l raw [Ha _] _ IH]; [reflexivity|].
      simpl. rewrite (str_ascii_of_ascii l Ha). cbn [bind].
      rewrite IH. reflexivity.
    - destruct raw_data; [congruence | discriminate].
    - apply Forall_map. eapply Forall_impl; [|exact F].
      intros l [_ Hc]. apply not_in_map_byte. exact Hc. }
  unfold finish. rewrite D. simpl. auto.
Qed.

Lemma lines_delivered_witness :
  ending (get_data [[]; ["A"; "B"; "013"]; ["010"; "C"]; []; ["D"]]%byte)
  = Returns [lit "AB"; lit "C"].
Proof.
  apply (lines_delivered 1 [["A"; "B"; "013"]; ["010"; "C"]]%byte
           [["D"]]%byte [lit "AB"; lit "C"]).
  - discriminate.
  - repeat constructor; simpl; intros H;
      repeat (destruct H as [H|H]; [discriminate|]); destruct H.
  - discriminate.
  - repeat constructor; discriminate.
  - reflexivity.
Defined.

(** * Further properties of the printer *)

(** ** The items of a statistics block *)

Lemma first_occurrence (c : ascii) (s : str) :
  In c s -> exists x rest, s = x ++ c :: rest /\ ~ In c x.
Proof.
  induction s as [|a s IH]; [intros []|].
  destruct (ascii_dec c a) as [<-|N].
  - intros _. exists [], s. split; [reflexivity | intros []].
  - intros [H|H]; [congruence|].
    destruct (IH H) as (x & rest & -> & Nx).
    exists (a :: x), rest. split; [reflexivity|].
    intros [E|E]; [congruence | contradiction].
Qed.

Lemma parts_of_fields (k v more : str) :
  ~ In ":"%char k -> ~ In ":"%char v ->
  parts_of (k ++ ":"%char :: v) = Ok (k, v)
  /\ parts_of (k ++ ":"%char :: v ++ ":"%char :: more) = Ok (k, v).
Proof.
  intros Hk Hv. unfold parts_of, str_split, split.
  change (lit ":") with [":"%char].
  rewrite (split_go_field ":" k v [] Hk).
  rewrite (split_go_field ":" k (v ++ ":"%char :: more) [] Hk).
  rewrite (split_go_field ":" v more [] Hv).
  rewrite (split_go_last ":" v [] Hv). split; reflexivity.
Qed.

(** An item with a colon: its key, its value and how it is made of them. *)
Lemma parts_of_with_colon (val : str) :
  In ":"%char val ->
  exists k v,
    ~ In ":"%char k /\ ~ In ":"%char v
    /\ parts_of val = Ok (k, v)
    /\ (val = k ++ ":"%char :: v
        \/ exists more, val = k ++ ":"%char :: v ++ ":"%char :: more).
Proof.
  intros I. destruct (first_occurrence ":" val I) as (x & r & -> & Hx).
  exists x.
  destruct (in_dec ascii_dec ":"%char r) as [J|J].
  - destruct (first_occurrence ":" r J) as (y & more & -> & Hy).
    exists y. repeat split; auto.
    + apply (parts_of_fields x y more Hx Hy).
    + right. exists more. reflexivity.
  - exists r. repeat split; auto.
    apply (parts_of_fields x r [] Hx J).
Qed.

(** X14.  From an item, [print_info] takes the text before the first colon
    as the key and the text between the first and the second colon as the
    value; what follows a second colon is dropped.  An item without colon
    has no value, and reading it raises [IndexError]. *)
Theorem item_key_and_value (val k v : str) :
  (parts_of val = Ok (k, v)
   <-> ~ In ":"%char k /\ ~ In ":"%char v
       /\ (val = k ++ ":"%char :: v
           \/ exists more, val = k ++ ":"%char :: v ++ ":"%char :: more))
  /\ (~ In ":"%char val <-> parts_of val = Raise IndexError).
Proof.
  destruct (in_dec ascii_dec ":"%char val) as [I|I].
  - destruct (parts_of_with_colon val I) as (x & y & Hx & Hy & P & Shape).
    split.
    + split.
      * rewrite P. intros H; injection H as <- <-. auto.
      * intros (Hk & Hv & [E|(more & E)]); rewrite E.
        -- apply (parts_of_fields k v [] Hk Hv).
        -- apply (parts_of_fields k v more Hk Hv).
    + rewrite P. split; [contradiction | discriminate].
  - rewrite (parts_of_no_colon val I). split.
    + split; [discriminate|].
      intros (_ & _ & [E|(more & E)]); exfalso; apply I; rewrite E;
        apply in_or_app; right; left; reflexivity.
    + tauto.
Qed.

(** ** When [print_info] goes through *)

Lemma for_each_parts_ok (f : str * str -> str) (l : list str) :
  Forall (fun val => In ":"%char val) l ->
  snd (for_each (fun val => kv <~ lift (parts_of val) ;; print (f kv)) l)
  = Ok tt.
Proof.
  induction 1 as [|val l Hv _ IH]; [reflexivity|].
  cbn [for_each]. rewrite snd_io_bind, snd_io_bind.
  destruct (parts_of_with_colon val Hv) as (k & v & _ & _ & P & _).
  rewrite P. unfold lift, print; cbn [snd]. exact IH.
Qed.

Lemma print_info_header (d : plotdict) :
  exists lines, fst (print_info d) = delimiter :: settings_line d :: lines.
Proof.
  unfold print_info, print. cbn [io_bind].
  destruct (io_bind (for_each _ _) _) as [out r]. simpl.
  destruct (let (out', r0) := (out, r) in (settings_line d :: out', r0))
    as [out1 r1] eqn:E.
  injection E as <- <-. exists out. reflexivity.
Qed.

(** X15.  [print_info] goes through exactly when every item of the two
    blocks, the parts between line feeds, holds a colon; otherwise it raises
    [IndexError], and nothing else.  In either case the delimiter and the
    settings line have been printed first.  A record whose voltage block is
    empty makes it raise. *)
Theorem print_info_outcome (d : plotdict) :
  (snd (print_info d) = Ok tt
   <-> Forall (fun val => In ":"%char val)
              (str_split [lf] (VoltageStats d)
               ++ str_split [lf] (SignalStats d)))
  /\ (snd (print_info d) = Ok tt \/ snd (print_info d) = Raise IndexError)
  /\ (exists lines, fst (print_info d) = delimiter :: settings_line d :: lines)
  /\ (VoltageStats d = [] -> snd (print_info d) = Raise IndexError).
Proof.
  assert (S : snd (print_info d)
              = match snd (for_each
                             (fun val => kv <~ lift (parts_of val) ;;
                                print (voltage_line (VscaleUnits d) kv))
                             (str_split [lf] (VoltageStats d))) with
                | Ok _ =>
                    match snd (for_each
                                 (fun val => kv <~ lift (parts_of val) ;;
                                    print (signal_line kv))
                                 (str_split [lf] (SignalStats d))) with
                    | Ok _ => Ok tt
                    | Raise e => Raise e
                    end
                | Raise e => Raise e
                end).
  { unfold print_info. rewrite !snd_io_bind. cbn [print snd]. reflexivity. }
  assert (Iff : snd (print_info d) = Ok tt
                <-> Forall (fun val => In ":"%char val)
                      (str_split [lf] (VoltageStats d)
                       ++ str_split [lf] (SignalStats d))).
  { rewrite S, Forall_app. split.
    - intros H.
      destruct (for_each_parts (voltage_line (VscaleUnits d))
                  (str_split [lf] (VoltageStats d))) as [[E1 A1]|E1];
        rewrite E1 in H; [|discriminate].
      destruct (for_each_parts signal_line
                  (str_split [lf] (SignalStats d))) as [[E2 A2]|E2];
        rewrite E2 in H; [|discriminate].
      auto.
    - intros [A1 A2].
      rewrite (for_each_parts_ok _ _ A1), (for_each_parts_ok _ _ A2).
      reflexivity. }
  split; [exact Iff|]. split; [|split; [apply print_info_header|]].
  - rewrite S.
    destruct (for_each_parts (voltage_line (VscaleUnits d))
                (str_split [lf] (VoltageStats d))) as [[E1 _]|E1];
      rewrite E1; [|right; reflexivity].
    destruct (for_each_parts signal_line
                (str_split [lf] (SignalStats d))) as [[E2 _]|E2];
      rewrite E2; [left | right]; reflexivity.
  - intros E. rewrite S, E. reflexivity.
Qed.

Lemma for_each_comprehension (f : str * str -> str) (l : list str)
      (kvs : list (str * str)) :
  comprehension parts_of l = Ok kvs ->
  for_each (fun val => kv <~ lift (parts_of val) ;; print (f kv)) l
  = (map f kvs, Ok tt).
Proof.
  revert kvs; induction l as [|val l IH]; intros kvs H.
  - injection H as <-. reflexivity.
  - simpl in H. unbind H. injection H as <-.
    cbn [for_each]. rewrite E, (IH a0 E0). reflexivity.
Qed.

(** X16.  When the items of the two blocks split into the pairs [vs] and
    [ss], [print_info] prints the delimiter, the settings line, one line
    for each pair in the order of the blocks (with the voltage unit after
    each voltage value, and [Hz] after the value of [Freq]) and the
    delimiter again: the number of pairs plus three lines. *)
Theorem print_info_lines (d : plotdict) (vs ss : list (str * str)) :
  comprehension parts_of (str_split [lf] (VoltageStats d)) = Ok vs ->
  comprehension parts_of (str_split [lf] (SignalStats d)) = Ok ss ->
  print_info d
  = ([delimiter; settings_line d]
       ++ map (voltage_line (VscaleUnits d)) vs
       ++ map signal_line ss
       ++ [delimiter],
     Ok tt)
  /\ length (fst (print_info d)) = length vs + length ss + 3.
Proof.
  intros V S.
  assert (E : print_info d
              = ([delimiter; settings_line d]
                   ++ map (voltage_line (VscaleUnits d)) vs
                   ++ map signal_line ss
                   ++ [delimiter],
                 Ok tt)).
  { unfold print_info.
    rewrite (for_each_comprehension _ _ vs V).
    rewrite (for_each_comprehension _ _ ss S). reflexivity. }
  split; [exact E|]. rewrite E. cbn [fst].
  rewrite !length_app, !length_map. simpl. lia.
Qed.

Lemma print_info_lines_witness :
  length (fst (print_info dict_uS)) = 7.
Proof.
  destruct (print_info_lines dict_uS
              [(lit "Vmax", lit "1.0V"); (lit "Vmin", lit "-1.0V")]
              [(lit "Freq", lit "1000Hz"); (lit "Duty", lit "50%")])
    as [_ L].
  - reflexivity.
  - reflexivity.
  - exact L.
Defined.

(** * Further properties of the main loop *)

Section Cycles.
Variable plot : bool -> plotdict -> result unit.
Variable fft : bool.

(** What a cycle prints. *)
Lemma main_cycle_completed (line : list (list byte))
      (cycles : list (list (list byte))) :
  cycle_completes plot fft line = true ->
  exists raw out,
    ending (get_data line) = Returns raw
    /\ fst (present plot fft raw) = out
    /\ main plot fft (line :: cycles)
       = after_cycle out (main plot fft cycles).
Proof.
  unfold cycle_completes. simpl.
  destruct (ending (get_data line)) as [raw| |]; try discriminate.
  destruct (present plot fft raw) as [out [u|e]] eqn:P; simpl;
    try discriminate.
  intros _. exists raw, out. rewrite P. repeat split.
Qed.

Lemma main_cycle_failed (line : list (list byte))
      (cycles : list (list (list byte))) :
  cycle_completes plot fft line = false ->
  main plot fft (line :: cycles) = main plot fft [line]
  /\ cycles_completed (main plot fft [line]) = 0
  /\ how (main plot fft [line])
     = match ending (get_data line) with
       | Hangs => Waiting
       | Raises e => Terminated e
       | Returns raw =>
           match snd (present plot fft raw) with
           | Raise e => Terminated e
           | Ok _ => Waiting
           end
       end.
Proof.
  unfold cycle_completes. simpl.
  destruct (ending (get_data line)) as [raw| |]; auto.
  destruct (present plot fft raw) as [out [u|e]]; simpl; auto.
  discriminate.
Qed.
End Cycles.

(** X17.  As long as every cycle runs without an exception the program
    goes on: after all the transmissions of the device it has completed as
    many cycles as there were transmissions and is waiting for the next
    one. *)
Theorem completed_cycles
        (plot : bool -> plotdict -> result unit) (fft : bool)
        (cycles : list (list (list byte))) :
  forallb (cycle_completes plot fft) cycles = true ->
  how (main plot fft cycles) = Waiting
  /\ cycles_completed (main plot fft cycles) = length cycles.
Proof.
  induction cycles as [|line cycles IH]; [auto|].
  simpl forallb. intros H. apply andb_true_iff in H as [Hl Hc].
  destruct (main_cycle_completed plot fft line cycles Hl)
    as (raw & out & _ & _ & ->).
  destruct (IH Hc) as [I1 I2]. simpl. auto.
Qed.

Lemma completed_cycles_witness :
  cycles_completed
    (main plot_ok false [[on_the_wire frame_uS]; [[]; on_the_wire frame_mS]])
  = 2.
Proof.
  apply (completed_cycles plot_ok false
           [[on_the_wire frame_uS]; [[]; on_the_wire frame_mS]]).
  vm_compute; reflexivity.
Defined.

(** X18.  The first cycle that does not run to its end decides how the
    program ends, whatever the device sends later: with the exception of
    that cycle, be it the decoding error of [get_data], an exception of
    [parse_data], of [print_info] or of the plotting; or waiting, when the
    line has fallen silent.  The cycles completed before it are counted. *)
Theorem first_failing_cycle
        (plot : bool -> plotdict -> result unit) (fft : bool)
        (completed : list (list (list byte))) (line : list (list byte))
        (later : list (list (list byte))) :
  forallb (cycle_completes plot fft) completed = true ->
  cycle_completes plot fft line = false ->
  main plot fft (completed ++ line :: later)
  = main plot fft (completed ++ [line])
  /\ cycles_completed (main plot fft (completed ++ line :: later))
     = length completed
  /\ how (main plot fft (completed ++ line :: later))
     = match ending (get_data line) with
       | Hangs => Waiting
       | Raises e => Terminated e
       | Returns raw =>
           match snd (present plot fft raw) with
           | Raise e => Terminated e
           | Ok _ => Waiting
           end
       end.
Proof.
  intros C F.
  destruct (main_cycle_failed plot fft line later F) as (E & N & H).
  induction completed as [|l completed IH]; simpl app.
  - rewrite E. auto.
  - simpl in C. apply andb_true_iff in C as [Cl C].
    destruct (main_cycle_completed plot fft l
                (completed ++ line :: later) Cl) as (raw & out & G & O & ->).
    destruct (main_cycle_completed plot fft l
                (completed ++ [line]) Cl) as (raw' & out' & G' & O' & ->).
    rewrite G in G'. injection G' as <-. rewrite O in O'. subst out'.
    destruct (IH C) as (I1 & I2 & I3).
    rewrite I1. unfold after_cycle; simpl.
    rewrite <- I1, I2, I3. auto.
Qed.

Lemma first_failing_cycle_witness :
  how (main plot_ok false
         [[on_the_wire frame_uS]; [["A"; "200"]%byte];
          [on_the_wire frame_uS]])
  = Terminated UnicodeDecodeError.
Proof.
  destruct (first_failing_cycle plot_ok false
              [[on_the_wire frame_uS]] [["A"; "200"]%byte]
              [[on_the_wire frame_uS]]) as (_ & _ & H).
  - vm_compute; reflexivity.
  - reflexivity.
  - exact H.
Defined.

(** * Properties of the spectrum plot *)

Lemma last_time_axis (d : plotdict) :
  last (time_axis d) 0%float = (2047 * Tscale d / 25)%float.
Proof.
  unfold time_axis. change 2048 with (S 2047).
  rewrite seq_S, map_app. cbn [map]. rewrite last_last. reflexivity.
Qed.

Lemma duration_of_cases (d : plotdict) :
  (TscaleUnits d = lit "uS"
   /\ duration_of d = ([], Some (2047 * Tscale d / 25 / 1000000)%float))
  \/ (TscaleUnits d = lit "mS"
      /\ duration_of d = ([], Some (2047 * Tscale d / 25 / 1000)%float))
  \/ (TscaleUnits d = lit "S"
      /\ duration_of d = ([], Some (2047 * Tscale d / 25)%float))
  \/ (TscaleUnits d <> lit "uS" /\ TscaleUnits d <> lit "mS"
      /\ TscaleUnits d <> lit "S"
      /\ duration_of d = ([warning], None)).
Proof.
  unfold duration_of. rewrite last_time_axis.
  destruct (str_eqb (TscaleUnits d) (lit "uS")) eqn:E1.
  { left. apply str_eqb_eq in E1. auto. }
  destruct (str_eqb (TscaleUnits d) (lit "mS")) eqn:E2.
  { right; left. apply str_eqb_eq in E2. auto. }
  destruct (str_eqb (TscaleUnits d) (lit "S")) eqn:E3.
  { right; right; left. apply str_eqb_eq in E3. auto. }
  right; right; right.
  apply str_eqb_neq in E1, E2, E3. auto.
Qed.

(** Closes the cases of an outcome that is known. *)
Ltac solve_outcome :=
  repeat match goal with
    | H : exists _, _ |- _ => destruct H
    | H : _ /\ _ |- _ => destruct H
    end;
  try tauto; try discriminate; try congruence;
  try (eexists; reflexivity).

(** X19.  [plot_fft] reaches a sampling period exactly for the units [uS],
    [mS] and [S] and a record with samples.  For any other unit it prints
    its warning and then fails on the variable [duration], which no branch
    has assigned; this comes before the division, so that an empty sample
    array shows as [ZeroDivisionError] only under a known unit.  Nothing is
    printed under a known unit. *)
Theorem plot_fft_outcome (d : plotdict) :
  let known := TscaleUnits d = lit "uS" \/ TscaleUnits d = lit "mS"
               \/ TscaleUnits d = lit "S" in
  ((exists T, snd (plot_fft d) = Done T) <-> known /\ ch1 d <> [])
  /\ (snd (plot_fft d) = Failed ZeroDivisionError <-> known /\ ch1 d = [])
  /\ (snd (plot_fft d) = Failed UnboundLocalError <-> ~ known)
  /\ (known -> fst (plot_fft d) = [])
  /\ (~ known -> fst (plot_fft d) = [warning]).
Proof.
  intros known. unfold plot_fft.
  destruct (duration_of_cases d) as [[U D]|[[U D]|[[U D]|(N1 & N2 & N3 & D)]]];
    rewrite D.
  1-3: assert (Hk : known) by (unfold known; tauto);
    destruct (ch1 d) as [|s l]; simpl; repeat split; intros;
    solve_outcome.
  assert (NK : ~ known) by (intros [H|[H|H]]; contradiction).
  simpl. repeat split; intros; solve_outcome.
Qed.

(** X20.  For a record that [parse_data] has returned, with the number [v]
    of line 3 and the unit token [tok] of line 2: [plot_fft] hands to
    [fftfreq] the period of 2047 steps of [Tscale/25] over 2048 samples,
    divided by 10^6 when the token starts with [uS] and by 10^3 when it
    starts with [mS], the value [v] having been divided by 1000 before in
    that case.  The branch for seconds is taken only when the token is the
    single letter [S]; any other token, such as [S/div], ends in the
    warning and [UnboundLocalError].  The division by the number of samples
    never fails. *)
Theorem plot_fft_after_parse_data (raw : list str) (d : plotdict)
        (v : float) (line tok : str) :
  parse_data raw = Ok d ->
  Tscale_of raw = Ok v ->
  index raw 2 = Ok line -> index (split_ws line) 2 = Ok tok ->
  (firstn 2 tok = lit "uS" ->
   plot_fft d = ([], Done (2047 * v / 25 / 1000000 / 2048)%float))
  /\ (firstn 2 tok = lit "mS" ->
      plot_fft d = ([], Done (2047 * (v / 1000) / 25 / 1000 / 2048)%float))
  /\ (tok = lit "S" ->
      plot_fft d = ([], Done (2047 * v / 25 / 2048)%float))
  /\ (firstn 2 tok <> lit "uS" -> firstn 2 tok <> lit "mS" ->
      tok <> lit "S" ->
      plot_fft d = ([warning], Failed UnboundLocalError))
  /\ snd (plot_fft d) <> Failed ZeroDivisionError.
Proof.
  intros P V I2 T2.
  apply parse_data_Ok in P as [F L].
  apply fill_plotdict_Ok in F as (v' & U & V' & T & _).
  rewrite V in V'. injection V' as <-.
  unfold TscaleUnits_of in U. rewrite I2 in U. cbn [bind] in U.
  rewrite T2 in U. cbn [bind] in U.
  assert (U' : TscaleUnits d = firstn 2 tok)
    by (unfold slice_to in U; congruence).
  clear U.
  assert (S1 : firstn 2 tok = lit "S" <-> tok = lit "S").
  { split; [|intros ->; reflexivity].
    destruct tok as [|a [|b tok]]; simpl; try discriminate; auto. }
  unfold plot_fft. rewrite L.
  change (float_of_nat 2048) with 2048%float.
  change (2048 =? 0) with false.
  destruct (duration_of_cases d) as [[E D]|[[E D]|[[E D]|(N1 & N2 & N3 & D)]]];
    rewrite D; clear D.
  - rewrite T, E. change (scale_Tscale (lit "uS") v) with v.
    rewrite U' in E. split; [|split; [|split; [|split]]].
    + reflexivity.
    + intros H. rewrite E in H. discriminate H.
    + intros H. apply S1 in H. rewrite E in H. discriminate H.
    + intros H. contradiction.
    + discriminate.
  - rewrite T, E. change (scale_Tscale (lit "mS") v) with (v / 1000)%float.
    rewrite U' in E. split; [|split; [|split; [|split]]].
    + intros H. rewrite E in H. discriminate H.
    + reflexivity.
    + intros H. apply S1 in H. rewrite E in H. discriminate H.
    + intros _ H. contradiction.
    + discriminate.
  - rewrite T, E. change (scale_Tscale (lit "S") v) with v.
    rewrite U' in E. split; [|split; [|split; [|split]]].
    + intros H. rewrite E in H. discriminate H.
    + intros H. rewrite E in H. discriminate H.
    + reflexivity.
    + intros _ _ H. apply S1 in E. contradiction.
    + discriminate.
  - rewrite U' in N1, N2, N3. split; [|split; [|split; [|split]]].
    + intros H. contradiction.
    + intros H. contradiction.
    + intros H. apply S1 in H. contradiction.
    + reflexivity.
    + discriminate.
Qed.

Lemma plot_fft_after_parse_data_witness :
  plot_fft dict_uS = ([], Done (2047 * 100 / 25 / 1000000 / 2048)%float).
Proof.
  destruct (plot_fft_after_parse_data frame_uS dict_uS 100%float
              (lit "Timebase: 1 uS/div") (lit "uS/div")) as (H & _).
  - vm_compute; reflexivity.
  - vm_compute; reflexivity.
  - reflexivity.
  - reflexivity.
  - apply H. reflexivity.
Defined.

(** A time base in seconds, written as the device writes the others: the
    unit token is [S/div], of which [S/] is kept. *)
Example seconds_time_base_fails :
  exists d,
    parse_data (frame "S" "1000000" "1V/div" "Vmax:1.0V" "Freq:1Hz" 2048)
    = Ok d
    /\ TscaleUnits d = lit "S/"
    /\ plot_fft d = ([warning], Failed UnboundLocalError).
Proof.
  eexists. split; [vm_compute; reflexivity|]. split; reflexivity.
Qed.

(** * The number of the time scale *)

(** A word without blank is one token. *)
Lemma split_ws_go_word (tok cur : str) :
  (forall c, In c tok -> is_space c = false) ->
  split_ws_go tok cur = emit (rev tok ++ cur) [].
Proof.
  revert cur; induction tok as [|a tok IH]; intros cur B; [reflexivity|].
  simpl. rewrite (B a (or_introl eq_refl)).
  rewrite IH by (intros c Hc; apply B; right; exact Hc).
  rewrite <- app_assoc. reflexivity.
Qed.

Lemma emit_last (cur : str) (pre : list str) (tok : str) :
  exists pre', emit cur (pre ++ [tok]) = pre' ++ [tok].
Proof.
  destruct cur as [|c cur]; simpl.
  - exists pre; reflexivity.
  - exists ((rev cur ++ [c]) :: pre); reflexivity.
Qed.

(** The last token of a line that ends in a blank and a word is the
    word. *)
Lemma split_ws_go_last_word (s : str) (b : ascii) (tok cur : str) :
  is_space b = true -> tok <> [] ->
  (forall c, In c tok -> is_space c = false) ->
  exists pre, split_ws_go (s ++ b :: tok) cur = pre ++ [tok].
Proof.
  intros Hb N B. revert cur; induction s as [|a s IH]; intros cur.
  - simpl. rewrite Hb. rewrite (split_ws_go_word tok [] B), app_nil_r.
    destruct (rev tok) as [|c r] eqn:R.
    + apply (f_equal (@rev ascii)) in R. rewrite rev_involutive in R.
      simpl in R. congruence.
    + change (emit (c :: r) []) with [rev (c :: r)].
      rewrite <- R, rev_involutive. apply (emit_last cur [] tok).
  - simpl. destruct (is_space a).
    + destruct (IH []) as (pre & ->). apply emit_last.
    + apply IH.
Qed.

Lemma index_neg_last A (pre : list A) (x : A) :
  index_neg (pre ++ [x]) 1 = Ok x.
Proof.
  unfold index_neg, index. rewrite length_app. simpl length.
  destruct (Nat.ltb_spec (length pre + 1) 1) as [H|H]; [lia|].
  replace (length pre + 1 - 1) with (length pre) by lia.
  rewrite nth_error_app2, Nat.sub_diag by lia. reflexivity.
Qed.

Lemma split_ws_blank (pad : str) : blank pad = true -> split_ws pad = [].
Proof.
  unfold split_ws, blank. induction pad as [|c pad IH]; [reflexivity|].
  simpl. intros H. apply andb_true_iff in H as [Hc Hp].
  rewrite Hc. simpl. apply IH. exact Hp.
Qed.

(** X21.  Of line 3 only the last token is read, as a number: the text
    before it, whatever it is, plays no part.  A line 3 made of blanks, or
    empty, has no token and raises [IndexError]. *)
Theorem time_scale_is_last_token (raw : list str) (text : str) (b : ascii)
        (tok : str) (pad : str) :
  is_space b = true -> tok <> [] ->
  (forall c, In c tok -> is_space c = false) ->
  blank pad = true ->
  (index raw 3 = Ok (text ++ b :: tok) -> Tscale_of raw = py_float tok)
  /\ (index raw 3 = Ok pad -> Tscale_of raw = Raise IndexError).
Proof.
  intros Hb N B Hp. split; intros I; unfold Tscale_of; rewrite I; cbn [bind].
  - unfold split_ws.
    destruct (split_ws_go_last_word text b tok [] Hb N B) as (pre & ->).
    rewrite index_neg_last. reflexivity.
  - rewrite (split_ws_blank pad Hp). reflexivity.
Qed.

Lemma time_scale_is_last_token_witness :
  Tscale_of [[]; []; []; lit "whatever  comes first 2.5"] = Ok 2.5%float
  /\ Tscale_of [[]; []; []; lit "   "] = Raise IndexError.
Proof.
  destruct (time_scale_is_last_token
              [[]; []; []; lit "whatever  comes first 2.5"]
              (lit "whatever  comes first") " "%char (lit "2.5") [])
    as [H _]; try reflexivity.
  - discriminate.
  - simpl. intros c [<-|[<-|[<-|[]]]]; reflexivity.
  - destruct (time_scale_is_last_token
                [[]; []; []; lit "   "] [] " "%char (lit "0") (lit "   "))
      as [_ H']; try reflexivity.
    + discriminate.
    + simpl. intros c [<-|[]]; reflexivity.
    + split; [rewrite H; reflexivity | apply H'; reflexivity].
Defined.
